(** * Givegram front-end controller: session lifecycle and giveaway run

    A shallow embedding of [frontend/js/app.js].  The controller is a set
    of event handlers over three pieces of mutable state: the [state]
    object, [localStorage] and the DOM.  Handlers talk to the outside world
    through [fetch], timers and [Math.random].

    Modelling choices.
    - [localStorage] is a finite map from keys to strings.
    - [null] is [None]; JavaScript truthiness of a string is "non-empty".
    - Strings are sequences of 8-bit code units.
    - A handler is a state transformer on [World].  Every [await] appends
      one [Event] to the world's [timeline], so the timeline is the
      observable history of a run: requests sent, countdowns shown, reveal
      holds.  The answers of the outside world come from an [Env]: what
      [fetch] resolves to (given the history so far) and what
      [Math.random] returns.
    - A number is an IEEE-754 binary64 value, as the Standard Library's
      [SpecFloat] specifies it; [Math.random() * (i + 1)] is the rounded
      product.
    - Each handler is modelled run to completion on its own.  Nothing in
      the script keeps a second handler from starting while one is
      suspended at an [await] (the logout link is never disabled); where
      a result depends on such an interleaving it is built step by step
      from the two halves of the suspended handler ([run_with_logout]).
    - A response body follows the API's contract: a JSON object whose
      fields have the types the endpoints document.  It is read only
      through the fields the caller accesses. *)

From Stdlib Require Import ZArith QArith String Ascii List DecimalString.
From Stdlib Require Import SpecFloat.
Close Scope Q_scope.
From stdpp Require Import gmap strings list.

Local Open Scope string_scope.
Local Open Scope Z_scope.
Local Open Scope list_scope.

(* ====================================================================== *)
(** * JavaScript values and string helpers *)

(** Truthiness of a string value: only the empty string is falsy. *)
Definition truthy (s : string) : bool := bool_decide (s ≠ "").

(** Truthiness of [string | null]. *)
Definition truthy_opt (o : option string) : bool :=
  match o with Some s => truthy s | None => false end.

(** [String(n)] for an integer. *)
Definition String_of_Z (n : Z) : string := NilZero.string_of_int (Z.to_int n).
Definition String_of_nat (n : nat) : string := NilZero.string_of_uint (Nat.to_uint n).

(** [s.padStart(2, "0")]. *)
Definition padStart2 (s : string) : string :=
  match String.length s with
  | O => "00"
  | S O => "0" +:+ s
  | _ => s
  end.

(** White space removed by [String.prototype.trim], within 8-bit code
    units: TAB, LF, VT, FF, CR, SPACE and NBSP. *)
Definition is_white_space (c : ascii) : bool :=
  let n := nat_of_ascii c in
  ((9 <=? n) && (n <=? 13) || (n =? 32) || (n =? 160))%nat.

Fixpoint trimStart_chars (l : list ascii) : list ascii :=
  match l with
  | c :: l' => if is_white_space c then trimStart_chars l' else l
  | [] => []
  end.

Definition trim (s : string) : string :=
  string_of_list_ascii
    (rev (trimStart_chars (rev (trimStart_chars (list_ascii_of_string s))))).

(* ====================================================================== *)
(** * Numbers

    A JavaScript number is an IEEE-754 binary64 value: [spec_float] with
    53 bits of precision and [emax = 1024]. *)

(** [x * y]: the product, rounded to nearest, ties to even. *)
Definition Number_mul (x y : spec_float) : spec_float := SFmul 53 1024 x y.

(** A natural number as a binary64 number. *)
Definition Number_of_nat (n : nat) : spec_float :=
  binary_normalize 53 1024 (Z.of_nat n) 0 false.

(** [Math.floor(x)] as an integer.  For NaN and the infinities, which
    [Math.floor] returns as they are, there is none. *)
Definition Math_floor (x : spec_float) : option Z :=
  match x with
  | S754_zero _ => Some 0
  | S754_finite s m e =>
      let v := cond_Zopp s (Zpos m) in
      Some (if 0 <=? e then v * 2 ^ e else v / 2 ^ (- e))
  | S754_infinity _ | S754_nan => None
  end.

(** A binary64 number in the interval [0, 1). *)
Definition in_unit_interval (x : spec_float) : Prop :=
  valid_binary 53 1024 x = true ∧
  SFleb (S754_zero false) x = true ∧
  SFltb x (Number_of_nat 1) = true.

(* ====================================================================== *)
(** * Regular expressions ([RegExp.prototype.test]) *)

(** The fragment of regular expressions [INSTAGRAM_URL_RE] is built from. *)
Inductive Regex : Type :=
| ReNone                                  (* matches nothing *)
| ReEps                                   (* matches the empty string *)
| ReClass (p : ascii → bool)              (* one character satisfying [p] *)
| ReSeq (r1 r2 : Regex)
| ReAlt (r1 r2 : Regex)
| ReStar (r : Regex).

Fixpoint nullable (r : Regex) : bool :=
  match r with
  | ReNone => false
  | ReEps => true
  | ReClass _ => false
  | ReSeq r1 r2 => nullable r1 && nullable r2
  | ReAlt r1 r2 => nullable r1 || nullable r2
  | ReStar _ => true
  end.

(** Brzozowski derivative: what remains to be matched after reading [c]. *)
Fixpoint deriv (c : ascii) (r : Regex) : Regex :=
  match r with
  | ReNone => ReNone
  | ReEps => ReNone
  | ReClass p => if p c then ReEps else ReNone
  | ReSeq r1 r2 =>
      if nullable r1
      then ReAlt (ReSeq (deriv c r1) r2) (deriv c r2)
      else ReSeq (deriv c r1) r2
  | ReAlt r1 r2 => ReAlt (deriv c r1) (deriv c r2)
  | ReStar r1 => ReSeq (deriv c r1) (ReStar r1)
  end.

(** [/^r/.test(s)]: some prefix of [s] is matched by [r].  The pattern is
    anchored at the start only. *)
Fixpoint test_chars (r : Regex) (s : list ascii) : bool :=
  nullable r ||
  match s with
  | [] => false
  | c :: s' => test_chars (deriv c r) s'
  end.

Definition RegExp_test (r : Regex) (s : string) : bool :=
  test_chars r (list_ascii_of_string s).

(** The strings a pattern matches, as a relation: the reference against
    which the matcher above is checked. *)
Inductive Matches : Regex → list ascii → Prop :=
| MEps : Matches ReEps []
| MClass p c : p c = true → Matches (ReClass p) [c]
| MSeq r1 r2 s1 s2 :
    Matches r1 s1 → Matches r2 s2 → Matches (ReSeq r1 r2) (s1 ++ s2)
| MAltL r1 r2 s : Matches r1 s → Matches (ReAlt r1 r2) s
| MAltR r1 r2 s : Matches r2 s → Matches (ReAlt r1 r2) s
| MStarNil r : Matches (ReStar r) []
| MStarApp r s1 s2 :
    Matches r s1 → Matches (ReStar r) s2 → Matches (ReStar r) (s1 ++ s2).

(** ASCII lower-casing, for the [i] flag. *)
Definition to_lower (c : ascii) : ascii :=
  let n := nat_of_ascii c in
  if ((65 <=? n) && (n <=? 90))%nat then ascii_of_nat (n + 32) else c.

(** A literal character under the [i] flag. *)
Definition ReChrI (c : ascii) : Regex :=
  ReClass (λ x, bool_decide (to_lower x = to_lower c)).

(** A literal string under the [i] flag. *)
Fixpoint ReLitI (s : string) : Regex :=
  match s with
  | EmptyString => ReEps
  | String c s' => ReSeq (ReChrI c) (ReLitI s')
  end.

Definition ReOpt (r : Regex) : Regex := ReAlt r ReEps.
Definition RePlus (r : Regex) : Regex := ReSeq r (ReStar r).

(** [\w]: [A-Za-z0-9_]. *)
Definition is_word_char (c : ascii) : bool :=
  let n := nat_of_ascii c in
  ((48 <=? n) && (n <=? 57) || (65 <=? n) && (n <=? 90)
   || (97 <=? n) && (n <=? 122) || (n =? 95))%nat.

(** [[\w-]]. *)
Definition is_word_or_dash (c : ascii) : bool :=
  is_word_char c || (nat_of_ascii c =? 45)%nat.

(* ====================================================================== *)
(** * Constants & configuration *)

(** Duration in seconds for each winner's countdown animation. *)
Definition COUNTDOWN_SECONDS : Z := 5.

(** Duration in seconds to display each individual winner reveal. *)
Definition WINNER_REVEAL_SECONDS : Z := 3.

(** Pool of congratulatory messages. *)
Definition CONGRATS_MESSAGES : list string :=
  [ "Congratulations!";
    "You're a winner!";
    "Lucky you!";
    "What a pick!";
    "Amazing!";
    "Incredible!";
    "Well deserved!";
    "You did it!";
    "Brilliant!";
    "Fantastic!" ].

(** [/^https?:\/\/(?:www\.)?instagram\.com\/(?:p|reel|tv)\/[\w-]+\/?/i] *)
Definition INSTAGRAM_URL_RE : Regex :=
  ReSeq (ReLitI "http")
 (ReSeq (ReOpt (ReChrI "s"))
 (ReSeq (ReLitI "://")
 (ReSeq (ReOpt (ReLitI "www."))
 (ReSeq (ReLitI "instagram.com/")
 (ReSeq (ReAlt (ReLitI "p") (ReAlt (ReLitI "reel") (ReLitI "tv")))
 (ReSeq (ReLitI "/")
 (ReSeq (RePlus (ReClass is_word_or_dash))
        (ReOpt (ReLitI "/"))))))))).

(** Base path for API endpoints. *)
Definition API_BASE : string := "/api".

(** Key used to store the raw Instagram session cookie in localStorage. *)
Definition COOKIE_STORAGE_KEY : string := "givegram_session_cookie".

(** Key used to store the backend session ID. *)
Definition SESSION_ID_STORAGE_KEY : string := "givegram_session_id".

(* ====================================================================== *)
(** * Data model *)

(** Modelled from the spec: a commenter record as produced by the scraping
    back end, which is not part of the front end.  The controller never
    inspects it. *)
Record User := { username : string; comment_count : Z }.

(** Errors a handler can catch.  [ApiError] is the class defined by the
    controller and carries the HTTP status; every other error (a
    [TypeError] from a failed [fetch], an [AbortError], a [SyntaxError]
    from a malformed body) is a [NativeError]. *)
Inductive JsError : Type :=
| ApiError (message : string) (status : Z)
| NativeError (name message : string).

Definition error_message (e : JsError) : string :=
  match e with
  | ApiError m _ => m
  | NativeError _ m => m
  end.

(** [err instanceof ApiError && err.status === 401] *)
Definition is_unauthorized (e : JsError) : bool :=
  match e with
  | ApiError _ status => bool_decide (status = 401)
  | NativeError _ _ => false
  end.

(** JSON request bodies, one per endpoint. *)
Inductive Body : Type :=
| LoginBody (session_cookie : string)
| LogoutBody (session_id : option string)
| ValidateBody (session_id : string)
| FetchCommentsBody (url : string) (session_id : option string)
| PickWinnersBody (users : list User) (num_winners min_comments : Z).

(** A parsed JSON response body that follows the API's contract: a JSON
    object whose fields have the types the endpoints document, read
    through the fields callers access.  [detail] is a string, the empty
    string when the field is absent (both are falsy, which is all
    [apiPost] asks of it); the other fields are those of a success body.
    Bodies outside the contract (a body that is not an object, a [detail]
    that is not a string, a success body without the field its caller
    reads) are not represented. *)
Record Payload := {
  detail : string;
  session_id : string;
  data_users : list User;
  total_comments : Z;
  data_winners : list string;
}.

(** What [await fetch(...)] produces: a rejection, or a response with a
    status and a body.  The body is [inr] of the parsed object, or [inl] of
    the parser's message when it is not JSON, so that [response.json()]
    rejects. *)
Inductive FetchResult : Type :=
| Rejected (e_name e_message : string)
| Responded (status : Z) (json : string + Payload).

(** [response.ok] *)
Definition response_ok (status : Z) : bool :=
  (200 <=? status) && (status <=? 299).

(** The application [state] object. *)
Record AppState := {
  sessionId : option string;
  users : list User;
  totalComments : Z;
  numWinners : Z;
  minComments : Z;
  winners : list string;
}.

(** The [state] object as the script creates it. *)
Definition initial_state : AppState :=
  {| sessionId := None; users := []; totalComments := 0; numWinners := 1;
     minComments := 1; winners := [] |}.

(** The five screens. *)
Inductive Screen : Type :=
| ScreenLogin | ScreenPasteLink | ScreenSettings | ScreenSearching | ScreenResults.

#[export] Instance Screen_eq_dec : EqDecision Screen.
Proof. solve_decision. Defined.

(** An inline error paragraph. *)
Record ErrorEl := { textContent : string; hidden : bool }.

(** A button with a [.btn__label] and a [.btn__spinner]. *)
Record Button := {
  disabled : bool;
  label_text : string;
  label_hidden : bool;
  spinner_hidden : bool;
}.

(** An [.option-btn] of the settings screen. *)
Record OptionBtn := {
  data_setting : string;
  data_value : string;
  selected : bool;
  aria_pressed : string;
}.

(** A [li.winner-card] of the results list. *)
Record WinnerCard := { card_background : string; card_username : string }.

(** The searching / reveal screen. [arc_progress] is the fraction of the
    ring revealed (the dash offset is the circumference times one minus
    this fraction). *)
Record RevealView := {
  findingLabel : string;
  searchingPhase_hidden : bool;
  winnerReveal_hidden : bool;
  countdown : string;
  arc_progress : Q;
  revealCongrats : string;
  revealUsername : string;
}.

(** Identifiers of the error paragraphs and of the buttons in [els]. *)
Inductive ErrId := LoginError | UrlError | SettingsError.
Inductive BtnId := LoginBtn | FetchBtn | RunGiveawayBtn.

Record Dom := {
  active : option Screen;          (* the section carrying .screen--active *)
  appLoading_hidden : bool;
  loginError : ErrorEl;
  urlError : ErrorEl;
  settingsError : ErrorEl;
  sessionCookieInput : string;
  urlInput : string;
  loginBtn : Button;
  fetchBtn : Button;
  runGiveawayBtn : Button;
  optionBtns : list OptionBtn;
  reveal : RevealView;
  winnersList : list WinnerCard;
}.

(** One entry per awaited promise. *)
Inductive Event : Type :=
| EvFetch (url : string) (body : Body)          (* await fetch(url, {POST body}) *)
| EvCountdown (shown : RevealView) (ticks : list (string * Q))
                                                (* await animateCountdown() *)
| EvWait (seconds : Z) (shown : RevealView).    (* await wait(seconds) *)

Record World := {
  state : AppState;
  localStorage : gmap string string;
  dom : Dom;
  timeline : list Event;           (* oldest first *)
  randoms_drawn : nat;             (* calls to Math.random so far *)
}.

(** The outside world. [fetch_result] sees the history up to the request;
    [random k] is the value of the [k]-th call to [Math.random]. *)
Record Env := {
  fetch_result : list Event → string → Body → FetchResult;
  random : nat → spec_float;
}.

(** [Math.random] returns a number in [0, 1). *)
Definition random_in_range (env : Env) : Prop :=
  ∀ k, in_unit_interval (random env k).

(* ---------------------------------------------------------------------- *)
(** ** Field updates *)

Definition set_state (f : AppState → AppState) (w : World) : World :=
  {| state := f (state w); localStorage := localStorage w; dom := dom w;
     timeline := timeline w; randoms_drawn := randoms_drawn w |}.

Definition set_localStorage (f : gmap string string → gmap string string)
    (w : World) : World :=
  {| state := state w; localStorage := f (localStorage w); dom := dom w;
     timeline := timeline w; randoms_drawn := randoms_drawn w |}.

Definition set_dom (f : Dom → Dom) (w : World) : World :=
  {| state := state w; localStorage := localStorage w; dom := f (dom w);
     timeline := timeline w; randoms_drawn := randoms_drawn w |}.

Definition log_event (e : Event) (w : World) : World :=
  {| state := state w; localStorage := localStorage w; dom := dom w;
     timeline := timeline w ++ [e]; randoms_drawn := randoms_drawn w |}.

Definition with_sessionId (v : option string) (s : AppState) : AppState :=
  {| sessionId := v; users := users s; totalComments := totalComments s;
     numWinners := numWinners s; minComments := minComments s;
     winners := winners s |}.

Definition with_users (v : list User) (s : AppState) : AppState :=
  {| sessionId := sessionId s; users := v; totalComments := totalComments s;
     numWinners := numWinners s; minComments := minComments s;
     winners := winners s |}.

Definition with_totalComments (v : Z) (s : AppState) : AppState :=
  {| sessionId := sessionId s; users := users s; totalComments := v;
     numWinners := numWinners s; minComments := minComments s;
     winners := winners s |}.

Definition with_numWinners (v : Z) (s : AppState) : AppState :=
  {| sessionId := sessionId s; users := users s;
     totalComments := totalComments s; numWinners := v;
     minComments := minComments s; winners := winners s |}.

Definition with_minComments (v : Z) (s : AppState) : AppState :=
  {| sessionId := sessionId s; users := users s;
     totalComments := totalComments s; numWinners := numWinners s;
     minComments := v; winners := winners s |}.

Definition with_winners (v : list string) (s : AppState) : AppState :=
  {| sessionId := sessionId s; users := users s;
     totalComments := totalComments s; numWinners := numWinners s;
     minComments := minComments s; winners := v |}.

Definition with_active (v : option Screen) (d : Dom) : Dom :=
  {| active := v; appLoading_hidden := appLoading_hidden d;
     loginError := loginError d; urlError := urlError d;
     settingsError := settingsError d;
     sessionCookieInput := sessionCookieInput d; urlInput := urlInput d;
     loginBtn := loginBtn d; fetchBtn := fetchBtn d;
     runGiveawayBtn := runGiveawayBtn d; optionBtns := optionBtns d;
     reveal := reveal d; winnersList := winnersList d |}.

Definition with_appLoading_hidden (v : bool) (d : Dom) : Dom :=
  {| active := active d; appLoading_hidden := v;
     loginError := loginError d; urlError := urlError d;
     settingsError := settingsError d;
     sessionCookieInput := sessionCookieInput d; urlInput := urlInput d;
     loginBtn := loginBtn d; fetchBtn := fetchBtn d;
     runGiveawayBtn := runGiveawayBtn d; optionBtns := optionBtns d;
     reveal := reveal d; winnersList := winnersList d |}.

Definition with_error (el : ErrId) (v : ErrorEl) (d : Dom) : Dom :=
  {| active := active d; appLoading_hidden := appLoading_hidden d;
     loginError := match el with LoginError => v | _ => loginError d end;
     urlError := match el with UrlError => v | _ => urlError d end;
     settingsError := match el with SettingsError => v | _ => settingsError d end;
     sessionCookieInput := sessionCookieInput d; urlInput := urlInput d;
     loginBtn := loginBtn d; fetchBtn := fetchBtn d;
     runGiveawayBtn := runGiveawayBtn d; optionBtns := optionBtns d;
     reveal := reveal d; winnersList := winnersList d |}.

Definition with_button (b : BtnId) (v : Button) (d : Dom) : Dom :=
  {| active := active d; appLoading_hidden := appLoading_hidden d;
     loginError := loginError d; urlError := urlError d;
     settingsError := settingsError d;
     sessionCookieInput := sessionCookieInput d; urlInput := urlInput d;
     loginBtn := match b with LoginBtn => v | _ => loginBtn d end;
     fetchBtn := match b with FetchBtn => v | _ => fetchBtn d end;
     runGiveawayBtn := match b with RunGiveawayBtn => v | _ => runGiveawayBtn d end;
     optionBtns := optionBtns d;
     reveal := reveal d; winnersList := winnersList d |}.

Definition with_sessionCookieInput (v : string) (d : Dom) : Dom :=
  {| active := active d; appLoading_hidden := appLoading_hidden d;
     loginError := loginError d; urlError := urlError d;
     settingsError := settingsError d;
     sessionCookieInput := v; urlInput := urlInput d;
     loginBtn := loginBtn d; fetchBtn := fetchBtn d;
     runGiveawayBtn := runGiveawayBtn d; optionBtns := optionBtns d;
     reveal := reveal d; winnersList := winnersList d |}.

Definition with_urlInput (v : string) (d : Dom) : Dom :=
  {| active := active d; appLoading_hidden := appLoading_hidden d;
     loginError := loginError d; urlError := urlError d;
     settingsError := settingsError d;
     sessionCookieInput := sessionCookieInput d; urlInput := v;
     loginBtn := loginBtn d; fetchBtn := fetchBtn d;
     runGiveawayBtn := runGiveawayBtn d; optionBtns := optionBtns d;
     reveal := reveal d; winnersList := winnersList d |}.

Definition with_optionBtns (v : list OptionBtn) (d : Dom) : Dom :=
  {| active := active d; appLoading_hidden := appLoading_hidden d;
     loginError := loginError d; urlError := urlError d;
     settingsError := settingsError d;
     sessionCookieInput := sessionCookieInput d; urlInput := urlInput d;
     loginBtn := loginBtn d; fetchBtn := fetchBtn d;
     runGiveawayBtn := runGiveawayBtn d; optionBtns := v;
     reveal := reveal d; winnersList := winnersList d |}.

Definition with_reveal (v : RevealView) (d : Dom) : Dom :=
  {| active := active d; appLoading_hidden := appLoading_hidden d;
     loginError := loginError d; urlError := urlError d;
     settingsError := settingsError d;
     sessionCookieInput := sessionCookieInput d; urlInput := urlInput d;
     loginBtn := loginBtn d; fetchBtn := fetchBtn d;
     runGiveawayBtn := runGiveawayBtn d; optionBtns := optionBtns d;
     reveal := v; winnersList := winnersList d |}.

Definition with_winnersList (v : list WinnerCard) (d : Dom) : Dom :=
  {| active := active d; appLoading_hidden := appLoading_hidden d;
     loginError := loginError d; urlError := urlError d;
     settingsError := settingsError d;
     sessionCookieInput := sessionCookieInput d; urlInput := urlInput d;
     loginBtn := loginBtn d; fetchBtn := fetchBtn d;
     runGiveawayBtn := runGiveawayBtn d; optionBtns := optionBtns d;
     reveal := reveal d; winnersList := v |}.


Definition get_button (b : BtnId) (d : Dom) : Button :=
  match b with
  | LoginBtn => loginBtn d
  | FetchBtn => fetchBtn d
  | RunGiveawayBtn => runGiveawayBtn d
  end.

(* ---------------------------------------------------------------------- *)
(** ** Handlers as state transformers *)

(** A computation that reads and updates the world and returns a value. *)
Definition Js (A : Type) : Type := World → A * World.

#[export] Instance Js_ret : MRet Js := λ A a w, (a, w).
#[export] Instance Js_bind : MBind Js :=
  λ A B f c w, let '(a, w') := c w in f a w'.

(** Lift a state update to a computation. *)
Definition exec (f : World → World) : Js unit := λ w, (tt, f w).

(** Read from the world. *)
Definition gets {A} (f : World → A) : Js A := λ w, (f w, w).

(** Run a computation for its effect only. *)
Definition run {A} (c : Js A) (w : World) : World := (c w).2.

(* ====================================================================== *)
(** * The controller *)

Section Controller.

Context (env : Env).

(* ---------------------------------------------------------------------- *)
(** ** Screen navigation and utility helpers *)

(** Deactivate the current screen and activate [target]; dismisses the
    initial loading indicator. *)
Definition navigateTo (target : Screen) : World → World :=
  set_dom (λ d, with_active (Some target) (with_appLoading_hidden true d)).

Definition showError (el : ErrId) (message : string) : World → World :=
  set_dom (with_error el {| textContent := message; hidden := false |}).

Definition hideError (el : ErrId) : World → World :=
  set_dom (with_error el {| textContent := ""; hidden := true |}).

Definition setButtonLoading (btn : BtnId) (loading : bool) : World → World :=
  set_dom (λ d,
    with_button btn
      {| disabled := loading;
         label_text := label_text (get_button btn d);
         label_hidden := loading;
         spinner_hidden := negb loading |} d).

(** [labelEl.textContent = text] for the label of a button. *)
Definition setButtonLabel (btn : BtnId) (text : string) : World → World :=
  set_dom (λ d,
    let b := get_button btn d in
    with_button btn
      {| disabled := disabled b; label_text := text;
         label_hidden := label_hidden b;
         spinner_hidden := spinner_hidden b |} d).

(** [await fetch(url, { method: "POST", ..., body })]: the request is sent
    and the outside world answers. *)
Definition fetch (url : string) (body : Body) : Js FetchResult :=
  λ w, (fetch_result env (timeline w) url body,
        log_event (EvFetch url body) w).

(** What [apiPost] makes of the response: [inr] of the parsed body, or
    [inl] of the error it throws. *)
Definition apiPost_settle (response : FetchResult) : JsError + Payload :=
  match response with
  | Rejected name message => inl (NativeError name message)
  | Responded status json =>
      if negb (response_ok status) then
        let data_detail :=
          match json with inr data => detail data | inl _ => "" end in
        let detail :=
          if truthy data_detail then data_detail
          else "Request failed (HTTP " +:+ String_of_Z status +:+ ")" in
        inl (ApiError detail status)
      else
        match json with
        | inr data => inr data
        | inl message => inl (NativeError "SyntaxError" message)
        end
  end.

(** Make a JSON POST request to an API endpoint. *)
Definition apiPost (endpoint : string) (body : Body) : Js (JsError + Payload) :=
  response ← fetch (API_BASE +:+ endpoint) body;
  mret (apiPost_settle response).

(* ---------------------------------------------------------------------- *)
(** ** Cookie persistence (localStorage) *)

Definition saveCookie (cookie : string) : World → World :=
  set_localStorage (insert COOKIE_STORAGE_KEY cookie).

Definition getSavedCookie (w : World) : option string :=
  localStorage w !! COOKIE_STORAGE_KEY.

Definition clearSavedCookie : World → World :=
  set_localStorage (delete COOKIE_STORAGE_KEY).

Definition saveSessionId (sessionId : string) : World → World :=
  set_localStorage (insert SESSION_ID_STORAGE_KEY sessionId).

Definition getSavedSessionId (w : World) : option string :=
  localStorage w !! SESSION_ID_STORAGE_KEY.

Definition clearSavedSessionId : World → World :=
  set_localStorage (delete SESSION_ID_STORAGE_KEY).

(* ---------------------------------------------------------------------- *)
(** ** Session expiry and transparent re-authentication *)

(** Attempt to re-authenticate with the cookie saved in localStorage.
    Returns [true] if [state.sessionId] has been refreshed. *)
Definition tryReauthenticate : Js bool :=
  savedCookie ← gets getSavedCookie;
  match savedCookie with
  | None => mret false
  | Some savedCookie =>
      if negb (truthy savedCookie) then mret false
      else
        r ← apiPost "/login" (LoginBody savedCookie);
        match r with
        | inr data =>
            exec (set_state (with_sessionId (Some (session_id data))));;
            exec (saveSessionId (session_id data));;
            mret true
        | inl err =>
            (if is_unauthorized err then
               (* Cookie is genuinely stale: clear everything. *)
               exec clearSavedCookie;;
               exec clearSavedSessionId
             else mret tt);;
            (* Network / abort errors leave stored credentials intact. *)
            mret false
        end
  end.

(** Clear the in-memory session and show the login screen with a message.
    Does not clear the persisted cookie. *)
Definition redirectToLogin (message : string) : World → World :=
  λ w,
    let w := set_state (with_sessionId None) w in
    let w := clearSavedSessionId w in
    let w := navigateTo ScreenLogin w in
    showError LoginError message w.

(** Handle an API error that may signal an expired session (HTTP 401). *)
Definition handleSessionExpiry (err : JsError) : Js string :=
  if negb (is_unauthorized err) then mret "not_session_error"
  else
    ok ← tryReauthenticate;
    if ok : bool then mret "reauthenticated"
    else
      savedCookie ← gets getSavedCookie;
      exec (redirectToLogin
              (if truthy_opt savedCookie
               then "Could not reconnect to Instagram. Please try again."
               else "Your session cookie has expired. Please paste a new one."));;
      mret "redirected".

(* ---------------------------------------------------------------------- *)
(** ** Screen 0: login *)

(** Handle the login form submission. *)
Definition handleLogin : Js unit :=
  exec (hideError LoginError);;
  sessionCookie ← gets (λ w, trim (sessionCookieInput (dom w)));
  if negb (truthy sessionCookie) then
    exec (showError LoginError "Please paste your Instagram session cookie.")
  else
    exec (setButtonLoading LoginBtn true);;
    r ← apiPost "/login" (LoginBody sessionCookie);
    match r with
    | inr data =>
        exec (set_state (with_sessionId (Some (session_id data))));;
        (* Persist credentials to skip re-login on future page loads. *)
        exec (saveCookie sessionCookie);;
        exec (saveSessionId (session_id data));;
        (* Clear the cookie input for security. *)
        exec (set_dom (with_sessionCookieInput ""));;
        exec (navigateTo ScreenPasteLink)
    | inl err =>
        exec (showError LoginError (error_message err))
    end;;
    exec (setButtonLoading LoginBtn false).

(** Log out: best-effort server call, then local cleanup. *)
Definition handleLogout : Js unit :=
  sid ← gets (λ w, sessionId (state w));
  (if truthy_opt sid then
     _ ← apiPost "/logout" (LogoutBody sid); mret tt
   else mret tt);;
  exec (set_state (with_sessionId None));;
  exec clearSavedCookie;;
  exec clearSavedSessionId;;
  exec (navigateTo ScreenLogin).

(* ---------------------------------------------------------------------- *)
(** ** Screen 1: paste link *)

(** The body of both [try] blocks of [handleFetchComments]: post the
    request with the current [state.sessionId]; on success store the
    response and go to the settings screen. *)
Definition fetchCommentsOnce (url : string) : Js (JsError + unit) :=
  sid ← gets (λ w, sessionId (state w));
  r ← apiPost "/fetch-comments" (FetchCommentsBody url sid);
  match r with
  | inr data =>
      exec (set_state (with_users (data_users data)));;
      exec (set_state (with_totalComments (total_comments data)));;
      exec (navigateTo ScreenSettings);;
      mret (inr tt)
  | inl err => mret (inl err)
  end.

(** Handle the fetch-comments form submission. *)
Definition handleFetchComments : Js unit :=
  exec (hideError UrlError);;
  url ← gets (λ w, trim (urlInput (dom w)));
  if negb (truthy url) then
    exec (showError UrlError "Please paste an Instagram link.")
  else if negb (RegExp_test INSTAGRAM_URL_RE url) then
    exec (showError UrlError "That doesn't look like a valid Instagram post URL.")
  else
    exec (setButtonLoading FetchBtn true);;
    originalText ← gets (λ w, label_text (fetchBtn (dom w)));
    exec (setButtonLabel FetchBtn "FETCHING...");;
    r ← fetchCommentsOnce url;
    match r with
    | inr _ => mret tt
    | inl err =>
        result ← handleSessionExpiry err;
        if String.eqb result "reauthenticated" then
          (* Backend session was refreshed: retry the request once. *)
          r' ← fetchCommentsOnce url;
          match r' with
          | inr _ => mret tt
          | inl retryErr => exec (showError UrlError (error_message retryErr))
          end
        else if String.eqb result "not_session_error" then
          exec (showError UrlError (error_message err))
        else
          (* redirected: the user is already on the login screen. *)
          mret tt
    end;;
    exec (setButtonLabel FetchBtn originalText);;
    exec (setButtonLoading FetchBtn false).

(* ---------------------------------------------------------------------- *)
(** ** Screen 3: searching animation *)

(** [Math.random()] *)
Definition Math_random : Js spec_float :=
  λ w, (random env (randoms_drawn w),
        {| state := state w; localStorage := localStorage w; dom := dom w;
           timeline := timeline w; randoms_drawn := S (randoms_drawn w) |}).

(** [[pool[i], pool[j]] = [pool[j], pool[i]]].  Both indices are within
    the array whenever [Math.random] is in range ([random_index_bound]);
    the model leaves the array alone otherwise. *)
Definition swap (pool : list string) (i j : nat) : list string :=
  match pool !! i, pool !! j with
  | Some x, Some y => <[j := x]> (<[i := y]> pool)
  | _, _ => pool
  end.

(** The loop [for (let i = ...; i > 0; i--)] of the shuffle, from index [i]
    down to 1. *)
Fixpoint shuffle_from (i : nat) (pool : list string) : Js (list string) :=
  match i with
  | O => mret pool
  | S i' =>
      r ← Math_random;
      let j := Math_floor (Number_mul r (Number_of_nat (i + 1))) in
      shuffle_from i'
        (match j with
         | Some j => if 0 <=? j then swap pool i (Z.to_nat j) else pool
         | None => pool
         end)
  end.

(** Return a shuffled copy of [CONGRATS_MESSAGES]. *)
Definition shuffleCongratsMessages : Js (list string) :=
  let pool := CONGRATS_MESSAGES in
  shuffle_from (length pool - 1) pool.

Definition update_reveal (f : RevealView → RevealView) : World → World :=
  set_dom (λ d, with_reveal (f (reveal d)) d).

Definition with_findingLabel (v : string) (r : RevealView) : RevealView :=
  {| findingLabel := v; searchingPhase_hidden := searchingPhase_hidden r;
     winnerReveal_hidden := winnerReveal_hidden r; countdown := countdown r;
     arc_progress := arc_progress r; revealCongrats := revealCongrats r;
     revealUsername := revealUsername r |}.

Definition with_countdown (text : string) (progress : Q) (r : RevealView)
    : RevealView :=
  {| findingLabel := findingLabel r;
     searchingPhase_hidden := searchingPhase_hidden r;
     winnerReveal_hidden := winnerReveal_hidden r; countdown := text;
     arc_progress := progress; revealCongrats := revealCongrats r;
     revealUsername := revealUsername r |}.

(** Show the countdown phase and hide the winner reveal phase. *)
Definition showSearchingPhase : World → World :=
  update_reveal (λ r,
    {| findingLabel := findingLabel r; searchingPhase_hidden := false;
       winnerReveal_hidden := true; countdown := countdown r;
       arc_progress := arc_progress r; revealCongrats := revealCongrats r;
       revealUsername := revealUsername r |}).

(** Show the winner reveal phase and hide the countdown phase. *)
Definition showRevealPhase (username congratsText : string) : World → World :=
  update_reveal (λ r,
    {| findingLabel := findingLabel r; searchingPhase_hidden := true;
       winnerReveal_hidden := false; countdown := countdown r;
       arc_progress := arc_progress r; revealCongrats := congratsText;
       revealUsername := "@" +:+ username |}).

(** Wait for a number of seconds: the view stays as it is meanwhile. *)
Definition wait (seconds : Z) : Js unit :=
  λ w, (tt, log_event (EvWait seconds (reveal (dom w))) w).

(** What the interval callback of [animateCountdown] displays at each
    tick, from [remaining] seconds down to zero: the padded number and the
    fraction of the ring revealed. *)
Fixpoint countdown_ticks (totalSteps : Z) (remaining : nat) : list (string * Q) :=
  match remaining with
  | O => []
  | S remaining' =>
      (padStart2 (String_of_nat remaining'),
       Qmake (totalSteps - Z.of_nat remaining') (Z.to_pos totalSteps))
      :: countdown_ticks totalSteps remaining'
  end.

(** Animate a single countdown cycle: the arc is reset, the number starts
    at [COUNTDOWN_SECONDS], and each tick updates both until zero. *)
Definition animateCountdown : Js unit :=
  λ w,
    let remaining := COUNTDOWN_SECONDS in
    let totalSteps := COUNTDOWN_SECONDS in
    let w := update_reveal
               (with_countdown (padStart2 (String_of_Z remaining)) 0%Q) w in
    let ticks := countdown_ticks totalSteps (Z.to_nat remaining) in
    let shown := reveal (dom w) in
    let w := match last ticks with
             | Some (text, progress) =>
                 update_reveal (with_countdown text progress) w
             | None => w
             end in
    (tt, log_event (EvCountdown shown ticks) w).

(** The loop of [runSearchingAnimation]: [todo] iterations remain, the
    next one is for index [i]. *)
Fixpoint reveal_from (congratsPool winners : list string) (todo i : nat)
    : Js unit :=
  match todo with
  | O => mret tt
  | S todo' =>
      (* --- Countdown phase --- *)
      exec showSearchingPhase;;
      exec (update_reveal
              (with_findingLabel ("FINDING WINNER " +:+ String_of_nat (i + 1))));;
      animateCountdown;;
      (* --- Reveal phase --- *)
      let congrats :=
        default "undefined" (congratsPool !! (i mod length congratsPool)%nat) in
      exec (update_reveal
              (with_findingLabel ("WINNER " +:+ String_of_nat (i + 1))));;
      exec (showRevealPhase (default "undefined" (winners !! i)) congrats);;
      wait WINNER_REVEAL_SECONDS;;
      reveal_from congratsPool winners todo' (S i)
  end.

(** Run the full suspense animation sequence for all winners. *)
Definition runSearchingAnimation (winners : list string) : Js unit :=
  congratsPool ← shuffleCongratsMessages;
  reveal_from congratsPool winners (length winners) 0;;
  (* Return to the searching phase state for next time. *)
  exec showSearchingPhase.

(* ---------------------------------------------------------------------- *)
(** ** Screen 4: winner results *)

Definition avatarGradients : list string :=
  [ "linear-gradient(135deg, #8b1a1a, #d4a844)";
    "linear-gradient(135deg, #d4a844, #e8785c)";
    "linear-gradient(135deg, #6b5e54, #8b1a1a)";
    "linear-gradient(135deg, #e8785c, #d4a844)";
    "linear-gradient(135deg, #8b1a1a, #6b5e54)" ].

(** Populate the winners list and navigate to the results screen. *)
Definition showResults (winners : list string) : World → World :=
  λ w,
    let cards :=
      imap (λ index username,
              {| card_background :=
                   default "undefined"
                     (avatarGradients !! (index mod length avatarGradients)%nat);
                 card_username := "@" +:+ username |}) winners in
    navigateTo ScreenResults (set_dom (with_winnersList cards) w).

(* ---------------------------------------------------------------------- *)
(** ** Screen 2: giveaway settings *)

(** Handle the run-giveaway button click. *)
Definition handleRunGiveaway : Js unit :=
  exec (hideError SettingsError);;
  exec (setButtonLoading RunGiveawayBtn true);;
  st ← gets state;
  r ← apiPost "/pick-winners"
        (PickWinnersBody (users st) (numWinners st) (minComments st));
  match r with
  | inr data =>
      exec (set_state (with_winners (data_winners data)));;
      exec (navigateTo ScreenSearching);;
      runSearchingAnimation (data_winners data);;
      exec (showResults (data_winners data))
  | inl err =>
      exec (showError SettingsError (error_message err))
  end;;
  exec (setButtonLoading RunGiveawayBtn false).

(** [handleRunGiveaway] up to its first [await]: the error is hidden, the
    button is disabled and the selection request is sent.  The handler is
    then suspended until the answer, returned here, arrives. *)
Definition handleRunGiveaway_request : Js (JsError + Payload) :=
  exec (hideError SettingsError);;
  exec (setButtonLoading RunGiveawayBtn true);;
  st ← gets state;
  apiPost "/pick-winners"
    (PickWinnersBody (users st) (numWinners st) (minComments st)).

(** [handleRunGiveaway] from the answer on.  The winners are read from
    [state.winners] where the script reads them. *)
Definition handleRunGiveaway_resume (r : JsError + Payload) : Js unit :=
  match r with
  | inr data =>
      exec (set_state (with_winners (data_winners data)));;
      exec (navigateTo ScreenSearching);;
      ws ← gets (λ w, winners (state w));
      runSearchingAnimation ws;;
      ws ← gets (λ w, winners (state w));
      exec (showResults ws)
  | inl err =>
      exec (showError SettingsError (error_message err))
  end;;
  exec (setButtonLoading RunGiveawayBtn false).

(* ---------------------------------------------------------------------- *)
(** ** Screen 4: run again *)

(** Reset the giveaway state (but keep the session) and go back to the
    paste-link screen. *)
Definition handleRunAgain : World → World :=
  λ w,
    let w := set_state (with_users []) w in
    let w := set_state (with_totalComments 0) w in
    let w := set_state (with_numWinners 1) w in
    let w := set_state (with_minComments 1) w in
    let w := set_state (with_winners []) w in
    (* Reset settings UI to defaults. *)
    let w := set_dom (λ d,
               with_optionBtns
                 (map (λ btn,
                         let isDefault := String.eqb (data_value btn) "1" in
                         {| data_setting := data_setting btn;
                            data_value := data_value btn;
                            selected := isDefault;
                            aria_pressed := if isDefault then "true" else "false" |})
                      (optionBtns d)) d) w in
    (* Clear previous input & errors. *)
    let w := set_dom (with_urlInput "") w in
    let w := hideError UrlError w in
    let w := hideError SettingsError w in
    let w := set_dom (with_winnersList []) w in
    (* Navigate to paste-link, not login: the session is still valid. *)
    navigateTo ScreenPasteLink w.

(* ---------------------------------------------------------------------- *)
(** ** Start-up: two-tier session restore *)

(** Tier 2 of [init]: re-login with the stored cookie. *)
Definition init_tier2 (savedCookie : option string) : Js unit :=
  if truthy_opt savedCookie then
    r ← apiPost "/login" (LoginBody (default "" savedCookie));
    match r with
    | inr data =>
        exec (set_state (with_sessionId (Some (session_id data))));;
        exec (saveSessionId (session_id data));;
        exec (navigateTo ScreenPasteLink)
    | inl err =>
        if is_unauthorized err then
          (* Cookie is genuinely stale: clear everything. *)
          exec clearSavedCookie;;
          exec clearSavedSessionId;;
          exec (navigateTo ScreenLogin);;
          exec (showError LoginError
                  "Your saved session has expired. Please paste a new cookie.")
        else
          (* Network / abort error: keep credentials for the next attempt. *)
          exec (navigateTo ScreenLogin)
    end
  else
    (* --- Tier 3: no stored credentials: show login screen --- *)
    exec (navigateTo ScreenLogin).

(** The session restore of [init] (the event listeners it binds first are
    the handlers above). *)
Definition init : Js unit :=
  savedSessionId ← gets getSavedSessionId;
  savedCookie ← gets getSavedCookie;
  (* --- Tier 1: reuse existing backend session --- *)
  if truthy_opt savedSessionId then
    r ← apiPost "/validate-session" (ValidateBody (default "" savedSessionId));
    match r with
    | inr _ =>
        exec (set_state (with_sessionId savedSessionId));;
        exec (navigateTo ScreenPasteLink)
    | inl _ =>
        (* Session gone: clear stale id, try cookie. *)
        exec clearSavedSessionId;;
        init_tier2 savedCookie
    end
  else
    init_tier2 savedCookie.

End Controller.

(* ====================================================================== *)
(** * Reading a run *)

(** The answer [apiPost] gets for a request sent after history [h]. *)
Definition api_answer (env : Env) (endpoint : string) (body : Body)
    (h : list Event) : JsError + Payload :=
  apiPost_settle (fetch_result env h (API_BASE +:+ endpoint) body).

(** The event a call to [apiPost] leaves in the timeline. *)
Definition api_call (endpoint : string) (body : Body) : Event :=
  EvFetch (API_BASE +:+ endpoint) body.

(** The server answers the request with HTTP 401. *)
Definition answers_401 (env : Env) (endpoint : string) (body : Body)
    (h : list Event) : Prop :=
  ∃ json, fetch_result env h (API_BASE +:+ endpoint) body = Responded 401 json.

(** A request to the login endpoint. *)
Definition is_login_call (e : Event) : bool :=
  match e with
  | EvFetch url _ => String.eqb url "/api/login"
  | _ => false
  end.


(** A page load: the script's [state] and the document start afresh
    ([page] is the document as served), while [localStorage] persists. *)
Definition reload (page : Dom) (w : World) : World :=
  {| state := initial_state; localStorage := localStorage w; dom := page;
     timeline := timeline w; randoms_drawn := randoms_drawn w |}.

(** One start-up: the page loads and [init] runs. *)
Definition startup (env : Env) (page : Dom) (w : World) : World :=
  run (init env) (reload page w).

(** [n] start-ups in a row. *)
Fixpoint startups (env : Env) (page : Dom) (n : nat) (w : World) : World :=
  match n with
  | O => w
  | S n' => startups env page n' (startup env page w)
  end.

(** The login requests of a history. *)
Definition login_calls (h : list Event) : list Event :=
  filter (λ e, is_login_call e = true) h.

(* ====================================================================== *)
(** * Sample worlds and servers

    Concrete inputs on which the statements below are instantiated. *)

Definition idle_button (label : string) : Button :=
  {| disabled := false; label_text := label; label_hidden := false;
     spinner_hidden := true |}.

Definition no_error : ErrorEl := {| textContent := ""; hidden := true |}.

Definition blank_view : RevealView :=
  {| findingLabel := ""; searchingPhase_hidden := false;
     winnerReveal_hidden := true; countdown := ""; arc_progress := 0%Q;
     revealCongrats := ""; revealUsername := "" |}.

(** The page as loaded: nothing active, the loading indicator showing. *)
Definition fresh_dom : Dom :=
  {| active := None; appLoading_hidden := false;
     loginError := no_error; urlError := no_error; settingsError := no_error;
     sessionCookieInput := ""; urlInput := "";
     loginBtn := idle_button "LOG IN"; fetchBtn := idle_button "FETCH COMMENTS";
     runGiveawayBtn := idle_button "RUN GIVEAWAY";
     optionBtns :=
       [ {| data_setting := "num-winners"; data_value := "1";
            selected := true; aria_pressed := "true" |};
         {| data_setting := "num-winners"; data_value := "2";
            selected := false; aria_pressed := "false" |};
         {| data_setting := "min-comments"; data_value := "1";
            selected := true; aria_pressed := "true" |};
         {| data_setting := "min-comments"; data_value := "2";
            selected := false; aria_pressed := "false" |} ];
     reveal := blank_view; winnersList := [] |}.


(** A freshly loaded page over a given [localStorage]. *)
Definition fresh_world (storage : gmap string string) : World :=
  {| state := initial_state; localStorage := storage; dom := fresh_dom;
     timeline := []; randoms_drawn := 0 |}.

(** A browser that holds a cookie and a session id from an earlier visit. *)
Definition returning_storage : gmap string string :=
  <[SESSION_ID_STORAGE_KEY := "sid-1"]> (<[COOKIE_STORAGE_KEY := "cookie-1"]> ∅).

Definition empty_payload : Payload :=
  {| detail := ""; session_id := ""; data_users := []; total_comments := 0;
     data_winners := [] |}.

Definition login_payload (sid : string) : Payload :=
  {| detail := ""; session_id := sid; data_users := []; total_comments := 0;
     data_winners := [] |}.

Definition comments_payload (us : list User) (n : Z) : Payload :=
  {| detail := ""; session_id := ""; data_users := us; total_comments := n;
     data_winners := [] |}.

Definition winners_payload (ws : list string) : Payload :=
  {| detail := ""; session_id := ""; data_users := []; total_comments := 0;
     data_winners := ws |}.

Definition error_payload (d : string) : Payload :=
  {| detail := d; session_id := ""; data_users := []; total_comments := 0;
     data_winners := [] |}.

(** One half, and seven tenths rounded to binary64. *)
Definition one_half : spec_float := S754_finite false 4503599627370496 (-53).
Definition seven_tenths : spec_float :=
  S754_finite false 6305039478318694 (-53).

(** A random source that always returns one half. *)
Definition half : nat → spec_float := λ _, one_half.

(** The network is down: every request is rejected. *)
Definition offline : Env :=
  {| fetch_result := λ _ _ _, Rejected "TypeError" "Failed to fetch";
     random := half |}.

(** A server that accepts everything. *)
Definition healthy_server : Env :=
  {| fetch_result := λ _ _ body,
       match body with
       | LoginBody _ => Responded 200 (inr (login_payload "sid-2"))
       | FetchCommentsBody _ _ =>
           Responded 200
             (inr (comments_payload
                     [ {| username := "alice"; comment_count := 2 |};
                       {| username := "bob"; comment_count := 1 |} ] 3))
       | PickWinnersBody _ _ _ =>
           Responded 200 (inr (winners_payload ["alice"; "bob"; "cara"]))
       | _ => Responded 200 (inr empty_payload)
       end;
     random := half |}.

(** The same server with a random source that always returns seven
    tenths. *)
Definition seven_tenths_source : Env :=
  {| fetch_result := fetch_result healthy_server;
     random := λ _, seven_tenths |}.

(** A server that answers every request with HTTP 401. *)
Definition rejecting_server : Env :=
  {| fetch_result := λ _ _ _,
       Responded 401 (inr (error_payload "Invalid or expired session"));
     random := half |}.

(** The history after which tier 2 of [init] sends its login request: the
    start-up history, plus the validation request when tier 1 ran. *)
Definition tier2_history (w : World) : list Event :=
  match getSavedSessionId w with
  | Some sid =>
      if truthy sid
      then timeline w ++ [api_call "/validate-session" (ValidateBody sid)]
      else timeline w
  | None => timeline w
  end.

(** A signed-in user on the paste-link screen who has typed [url]. *)
Definition signed_in_world (url : string) : World :=
  {| state := with_sessionId (Some "sid-1") initial_state;
     localStorage := returning_storage;
     dom := with_urlInput url (with_active (Some ScreenPasteLink) fresh_dom);
     timeline := []; randoms_drawn := 0 |}.

(* ====================================================================== *)
(** * Reading the reveal sequence *)

(** What the user sees during one awaited step of the animation. *)
Inductive Phase : Type :=
| CountdownPhase (label : string) (numbers : list string)
| RevealPhase (label username congrats : string) (seconds : Z).

(** A countdown event is a countdown phase when the searching view is
    showing; a wait is a reveal phase when the winner view is showing. *)
Definition phase_of (e : Event) : option Phase :=
  match e with
  | EvCountdown shown ticks =>
      if searchingPhase_hidden shown || negb (winnerReveal_hidden shown)
      then None
      else Some (CountdownPhase (findingLabel shown)
                   (countdown shown :: map fst ticks))
  | EvWait seconds shown =>
      if winnerReveal_hidden shown || negb (searchingPhase_hidden shown)
      then None
      else Some (RevealPhase (findingLabel shown) (revealUsername shown)
                   (revealCongrats shown) seconds)
  | EvFetch _ _ => None
  end.

(** The message shown to winner [i]. *)
Definition message_for (pool : list string) (i : nat) : string :=
  default "undefined" (pool !! (i mod length pool)%nat).

(** The two phases of winner number [i]. *)
Definition phase_pair (pool : list string) (i : nat) (name : string)
    : list Phase :=
  [ CountdownPhase ("FINDING WINNER " +:+ String_of_nat (i + 1))
      ["05"; "04"; "03"; "02"; "01"; "00"];
    RevealPhase ("WINNER " +:+ String_of_nat (i + 1)) ("@" +:+ name)
      (message_for pool i) WINNER_REVEAL_SECONDS ].

(** The phases of winners [i], [i+1], ... in order. *)
Fixpoint schedule_from (pool : list string) (i : nat) (names : list string)
    : list Phase :=
  match names with
  | [] => []
  | name :: names' => phase_pair pool i name ++ schedule_from pool (S i) names'
  end.

Definition is_countdown (p : Phase) : bool :=
  match p with CountdownPhase _ _ => true | RevealPhase _ _ _ _ => false end.

Definition is_reveal (p : Phase) : bool :=
  match p with CountdownPhase _ _ => false | RevealPhase _ _ _ _ => true end.

(** [Math.random] has been called [n] more times. *)
Definition after_randoms (n : nat) (w : World) : World :=
  {| state := state w; localStorage := localStorage w; dom := dom w;
     timeline := timeline w; randoms_drawn := (n + randoms_drawn w)%nat |}.

(** The ticks of one countdown, as displayed. *)
Definition five_ticks : list (string * Q) :=
  [ ("04", (1 # 5)%Q); ("03", (2 # 5)%Q); ("02", (3 # 5)%Q);
    ("01", (4 # 5)%Q); ("00", (5 # 5)%Q) ].

(** A selection service that returns an empty winner list. *)
Definition no_winner_server : Env :=
  {| fetch_result := λ _ _ _, Responded 200 (inr (winners_payload []));
     random := half |}.

(** A user on the settings screen with comments fetched. *)
Definition settings_world : World :=
  {| state :=
       with_users [ {| username := "alice"; comment_count := 2 |} ]
         (with_sessionId (Some "sid-1") initial_state);
     localStorage := returning_storage;
     dom := with_active (Some ScreenSettings) fresh_dom;
     timeline := []; randoms_drawn := 0 |}.

(* ====================================================================== *)
(** * The run controller's state *)

(** Modelled from the spec: the RunState of the giveaway run controller,
    which the script does not keep as a value.  It is read off a world:
    a disabled trigger button means its request is in flight; otherwise
    the active screen tells where the run stands.  The login screen is
    the session manager's and is not a state of a run: on it, as on the
    paste-link screen, no run is under way. *)
Inductive RunState : Type :=
| Idle | AwaitingComments | Settings | AwaitingSelection | Revealing | Results.

Definition runState (w : World) : RunState :=
  if disabled (fetchBtn (dom w)) then AwaitingComments
  else if disabled (runGiveawayBtn (dom w)) then
    match active (dom w) with
    | Some ScreenSearching => Revealing
    | _ => AwaitingSelection
    end
  else
    match active (dom w) with
    | Some ScreenSettings => Settings
    | Some ScreenSearching => Revealing
    | Some ScreenResults => Results
    | Some ScreenPasteLink | Some ScreenLogin | None => Idle
    end.

(** A server whose sessions have expired: comment requests carrying the
    old session id get HTTP 401; login issues a fresh id, which works. *)
Definition expired_session_server : Env :=
  {| fetch_result := λ _ _ body,
       match body with
       | LoginBody _ => Responded 200 (inr (login_payload "sid-2"))
       | FetchCommentsBody _ (Some "sid-2") =>
           Responded 200
             (inr (comments_payload
                     [ {| username := "alice"; comment_count := 2 |};
                       {| username := "bob"; comment_count := 1 |} ] 3))
       | _ => Responded 401 (inr (error_payload "Invalid or expired session"))
       end;
     random := half |}.

Definition post_url : string := "https://www.instagram.com/p/Cabc123/".

(* ====================================================================== *)
(** * Whole visits *)

(** A whole visit: the page loads with a valid stored session, the user
    fetches the comments of a post and runs the giveaway. *)
Definition finished_run : World :=
  run (handleRunGiveaway healthy_server)
    (run (handleFetchComments healthy_server)
       (set_dom (with_urlInput post_url)
          (startup healthy_server fresh_dom (fresh_world returning_storage)))).



(* ====================================================================== *)
(** * More ways to read a world *)

(** From document [d] to document [d'] no button got stuck: each button
    keeps its label, and is enabled or as it was. *)
Definition buttons_kept (d d' : Dom) : Prop :=
  ∀ b, (disabled (get_button b d') = false ∨
        disabled (get_button b d') = disabled (get_button b d)) ∧
       label_text (get_button b d') = label_text (get_button b d).

(** The characters of a string, lower-cased as the [i] flag compares
    them. *)
Definition lower_chars (s : string) : list ascii :=
  map to_lower (list_ascii_of_string s).

(** A pattern that cannot tell a letter from its lower-case form. *)
Fixpoint case_blind (r : Regex) : Prop :=
  match r with
  | ReNone | ReEps => True
  | ReClass p => ∀ c, p (to_lower c) = p c
  | ReSeq r1 r2 | ReAlt r1 r2 => case_blind r1 ∧ case_blind r2
  | ReStar r1 => case_blind r1
  end.

(** A handler that leaves the results alone: it leaves the results screen,
    or keeps the screen, the winners and their list as they are. *)
Definition results_kept (w w' : World) : Prop :=
  active (dom w') ≠ Some ScreenResults ∨
  (active (dom w') = active (dom w) ∧
   winners (state w') = winners (state w) ∧
   winnersList (dom w') = winnersList (dom w)).
(* ====================================================================== *)
(** * Basic facts *)

#[global] Arguments apiPost : simpl never.
#[global] Arguments trim : simpl never.
#[global] Arguments runSearchingAnimation : simpl never.
#[global] Arguments tryReauthenticate : simpl never.
#[global] Arguments handleSessionExpiry : simpl never.
#[global] Arguments fetchCommentsOnce : simpl never.
#[global] Arguments init_tier2 : simpl never.
#[global] Arguments COOKIE_STORAGE_KEY : simpl never.
#[global] Arguments SESSION_ID_STORAGE_KEY : simpl never.
#[global] Arguments api_answer : simpl never.
#[global] Arguments RegExp_test : simpl never.

Lemma apiPost_eq env endpoint body w :
  apiPost env endpoint body w =
    (api_answer env endpoint body (timeline w),
     log_event (api_call endpoint body) w).
Proof. reflexivity. Qed.

Lemma unauthorized_inv e :
  is_unauthorized e = true → ∃ m, e = ApiError m 401.
Proof.
  destruct e as [m s|n m]; simpl; [|discriminate].
  intros H. apply bool_decide_eq_true in H. subst. by exists m.
Qed.

(** An [ApiError] with status 401 is thrown exactly when the server
    answered with HTTP 401. *)
Lemma api_answer_unauthorized env endpoint body h :
  (∃ err, api_answer env endpoint body h = inl err ∧ is_unauthorized err = true)
  ↔ answers_401 env endpoint body h.
Proof.
  unfold api_answer, answers_401, apiPost_settle. split.
  - intros (err & Heq & Hun).
    destruct (fetch_result env h _ body) as [n m|status json].
    + injection Heq as <-. discriminate.
    + destruct (negb (response_ok status)) eqn:Hok.
      * injection Heq as <-. simpl in Hun.
        apply bool_decide_eq_true in Hun. subst. by exists json.
      * destruct json; [injection Heq as <-|]; discriminate.
  - intros (json & ->). simpl. eexists. split; [reflexivity|]. reflexivity.
Qed.

Lemma truthy_true s : truthy s = true ↔ s ≠ "".
Proof. unfold truthy. apply bool_decide_eq_true. Qed.

Lemma truthy_opt_true o : truthy_opt o = true ↔ ∃ s, o = Some s ∧ s ≠ "".
Proof.
  destruct o as [s|]; simpl.
  - rewrite truthy_true. split; [eauto|]. by intros (? & [= <-] & ?).
  - split; [discriminate|]. by intros (? & ? & ?).
Qed.

Lemma truthy_false s : truthy s = false ↔ s = "".
Proof.
  unfold truthy. rewrite bool_decide_eq_false. split; [|naive_solver].
  intros H. by destruct (decide (s = "")).
Qed.


(* ====================================================================== *)
(** * The matcher agrees with the meaning of patterns *)

Lemma nullable_Matches r : nullable r = true ↔ Matches r [].
Proof.
  split.
  - induction r as [| |p|r1 IH1 r2 IH2|r1 IH1 r2 IH2|r IH]; cbn; intros H;
      try discriminate.
    + constructor.
    + apply andb_true_iff in H as [H1 H2].
      change (@nil ascii) with (@nil ascii ++ []). constructor; auto.
    + apply orb_true_iff in H as [H|H]; [apply MAltL|apply MAltR]; auto.
    + constructor.
  - intros H. remember [] as s eqn:Hs.
    induction H as [|p c Hp|r1 r2 s1 s2 H1 IH1 H2 IH2|r1 r2 s H IH|r1 r2 s H IH
                   |r|r s1 s2 H1 IH1 H2 IH2]; cbn; try done.
    + apply app_eq_nil in Hs as [-> ->].
      by rewrite IH1, IH2.
    + by rewrite IH.
    + rewrite IH by done. apply orb_true_r.
Qed.

(** A match of [ReStar r] on a non-empty string starts with a non-empty
    match of [r]. *)
Lemma Matches_star_cons r c s :
  Matches (ReStar r) (c :: s) →
  ∃ s1 s2, s = s1 ++ s2 ∧ Matches r (c :: s1) ∧ Matches (ReStar r) s2.
Proof.
  intros H. remember (ReStar r) as r' eqn:Hr. remember (c :: s) as cs eqn:Hcs.
  revert s Hcs.
  induction H as [|p x Hp|r1 r2 s1 s2 H1 IH1 H2 IH2|r1 r2 s0 H IH|r1 r2 s0 H IH
                 |r0|r0 s1 s2 H1 IH1 H2 IH2]; intros s Hcs; try discriminate.
  injection Hr as ->. destruct s1 as [|x s1].
  - cbn in Hcs. by apply IH2.
  - injection Hcs as -> <-. by exists s1, s2.
Qed.

Lemma deriv_Matches c r s : Matches (deriv c r) s ↔ Matches r (c :: s).
Proof.
  revert s. induction r as [| |p|r1 IH1 r2 IH2|r1 IH1 r2 IH2|r IH]; intros s; cbn.
  - split; inversion 1.
  - split; inversion 1.
  - destruct (p c) eqn:Hp; split; intros H; inversion H; subst.
    + by constructor.
    + constructor.
    + congruence.
  - destruct (nullable r1) eqn:Hn.
    + split; intros H.
      * inversion H as [| | | ? ? ? H'| ? ? ? H'| |]; subst.
        -- inversion H' as [| |? ? s1 s2 Ha Hb| | | |]; subst.
           apply IH1 in Ha. by apply (MSeq r1 r2 (c :: s1) s2).
        -- apply IH2 in H'. apply nullable_Matches in Hn.
           by apply (MSeq r1 r2 [] (c :: s)).
      * inversion H as [| |? ? s1 s2 Ha Hb| | | |]; subst.
        match goal with Hx : _ ++ _ = _ :: _ |- _ => rename Hx into Heq end.
        destruct s1 as [|x s1]; cbn in Heq.
        -- subst. apply MAltR. by apply IH2.
        -- injection Heq as -> <-. apply MAltL. constructor; [|done].
           by apply IH1.
    + split; intros H.
      * inversion H as [| |? ? s1 s2 Ha Hb| | | |]; subst.
        apply IH1 in Ha. by apply (MSeq r1 r2 (c :: s1) s2).
      * inversion H as [| |? ? s1 s2 Ha Hb| | | |]; subst.
        match goal with Hx : _ ++ _ = _ :: _ |- _ => rename Hx into Heq end.
        destruct s1 as [|x s1]; cbn in Heq.
        -- apply nullable_Matches in Ha. congruence.
        -- injection Heq as -> <-. constructor; [|done]. by apply IH1.
  - split; intros H; inversion H; subst;
      [apply MAltL|apply MAltR|apply MAltL|apply MAltR]; by apply IH1 || by apply IH2.
  - split; intros H.
    + inversion H as [| |? ? s1 s2 Ha Hb| | | |]; subst.
      apply IH in Ha. by apply (MStarApp r (c :: s1) s2).
    + apply Matches_star_cons in H as (s1 & s2 & -> & Ha & Hb).
      constructor; [|done]. by apply IH.
Qed.

(** [test_chars] answers whether some prefix of the input is matched. *)
Theorem test_chars_prefix r s :
  test_chars r s = true ↔ ∃ p q, s = p ++ q ∧ Matches r p.
Proof.
  revert r. induction s as [|c s IH]; intros r; cbn.
  - rewrite orb_false_r, nullable_Matches. split.
    + intros H. by exists [], [].
    + intros (p & q & Heq & H). symmetry in Heq.
      apply app_eq_nil in Heq as [-> _]. done.
  - rewrite orb_true_iff, nullable_Matches, IH. split.
    + intros [H|(p & q & -> & H)].
      * by exists [], (c :: s).
      * exists (c :: p), q. split; [done|]. by apply deriv_Matches.
    + intros (p & q & Heq & H). destruct p as [|x p].
      * by left.
      * injection Heq as -> ->. right. exists p, q. split; [done|].
        by apply deriv_Matches.
Qed.
(* ====================================================================== *)
(** * Session expiry *)

(** C9.  For every error that is not an [ApiError] with status 401,
    [handleSessionExpiry] returns "not_session_error" and leaves the whole
    world as it was: no request is sent, and [state.sessionId], the
    persisted cookie and the persisted session id are unchanged. *)
Theorem handleSessionExpiry_not_session_error env err w :
  (∀ m, err ≠ ApiError m 401) →
  handleSessionExpiry env err w = ("not_session_error", w).
Proof.
  intros Hne. unfold handleSessionExpiry.
  destruct (is_unauthorized err) eqn:Hun; [|reflexivity].
  apply unauthorized_inv in Hun as [m ->]. by destruct (Hne m).
Qed.

Lemma handleSessionExpiry_not_session_error_witness :
  (∀ m, ApiError "Post not found" 404 ≠ ApiError m 401) ∧
  handleSessionExpiry healthy_server (ApiError "Post not found" 404)
      (fresh_world returning_storage)
    = ("not_session_error", fresh_world returning_storage).
Proof.
  split.
  - intros m H. discriminate H.
  - apply (handleSessionExpiry_not_session_error healthy_server
             (ApiError "Post not found" 404) (fresh_world returning_storage)).
    intros m H. discriminate H.
Defined.

(* ====================================================================== *)
(** * Login *)

(** Unfold the plumbing of handlers. *)
Ltac js_unfold :=
  unfold run, mbind, mret, Js_bind, Js_ret, exec, gets,
    getSavedCookie, getSavedSessionId in *.

(** C5.  [handleLogin] persists the credential and the session id only
    when the login request succeeds.  If it fails, with any error and
    HTTP 401 included, [localStorage] and [state.sessionId] are exactly as
    before, so no session id is left persisted by the attempt; an empty
    input sends no request and changes no storage either. *)
Theorem handleLogin_persists_only_on_success env w :
  (∀ err,
     api_answer env "/login" (LoginBody (trim (sessionCookieInput (dom w))))
       (timeline w) = inl err →
     localStorage (run (handleLogin env) w) = localStorage w ∧
     sessionId (state (run (handleLogin env) w)) = sessionId (state w) ∧
     (getSavedSessionId w = None →
      getSavedSessionId (run (handleLogin env) w) = None)) ∧
  (∀ data,
     trim (sessionCookieInput (dom w)) ≠ "" →
     api_answer env "/login" (LoginBody (trim (sessionCookieInput (dom w))))
       (timeline w) = inr data →
     localStorage (run (handleLogin env) w)
       = <[SESSION_ID_STORAGE_KEY := session_id data]>
           (<[COOKIE_STORAGE_KEY := trim (sessionCookieInput (dom w))]>
              (localStorage w)) ∧
     sessionId (state (run (handleLogin env) w)) = Some (session_id data)) ∧
  (trim (sessionCookieInput (dom w)) = "" →
     localStorage (run (handleLogin env) w) = localStorage w ∧
     timeline (run (handleLogin env) w) = timeline w).
Proof.
  unfold handleLogin. js_unfold. cbn.
  destruct (truthy (trim (sessionCookieInput (dom w)))) eqn:Ht; cbn.
  - rewrite apiPost_eq. cbn. apply truthy_true in Ht.
    split; [|split].
    + intros err ->. done.
    + intros data _ ->. done.
    + intros H. by destruct Ht.
  - apply truthy_false in Ht. split; [|split].
    + intros err _. done.
    + intros data H. by destruct H.
    + done.
Qed.

(** A successful login leaves the login screen with its error paragraph
    empty and hidden. *)
Lemma handleLogin_success_clears_error env w data :
  trim (sessionCookieInput (dom w)) ≠ "" →
  api_answer env "/login" (LoginBody (trim (sessionCookieInput (dom w))))
    (timeline w) = inr data →
  loginError (dom (run (handleLogin env) w))
    = {| textContent := ""; hidden := true |} ∧
  active (dom (run (handleLogin env) w)) = Some ScreenPasteLink.
Proof.
  intros Hne Hans. unfold handleLogin. js_unfold. cbn.
  apply truthy_true in Hne. rewrite Hne. cbn.
  rewrite apiPost_eq. cbn. rewrite Hans. done.
Qed.

(* ====================================================================== *)
(** * Persisted credentials *)

Lemma storage_keys_distinct : COOKIE_STORAGE_KEY ≠ SESSION_ID_STORAGE_KEY.
Proof. discriminate. Qed.

Lemma storage_keys_distinct' : SESSION_ID_STORAGE_KEY ≠ COOKIE_STORAGE_KEY.
Proof. discriminate. Qed.

(** Normalise lookups of the two keys through inserts and deletes. *)
Ltac storage_simpl :=
  repeat first
    [ rewrite lookup_insert_eq
    | rewrite lookup_delete_eq
    | rewrite (lookup_insert_ne _ _ _ _ storage_keys_distinct)
    | rewrite (lookup_insert_ne _ _ _ _ storage_keys_distinct')
    | rewrite (lookup_delete_ne _ _ _ storage_keys_distinct)
    | rewrite (lookup_delete_ne _ _ _ storage_keys_distinct') ].

(** Tier 2 keeps the cookie unless the login request is answered 401. *)
Lemma init_tier2_keeps_cookie env cookie w :
  ¬ (∃ c, cookie = Some c ∧
          answers_401 env "/login" (LoginBody c) (timeline w)) →
  getSavedCookie (run (init_tier2 env cookie) w) = getSavedCookie w.
Proof.
  intros Hno. unfold init_tier2. js_unfold.
  destruct (truthy_opt cookie) eqn:Ht; cbn; [|done].
  apply truthy_opt_true in Ht as (c & -> & Hne). cbn.
  rewrite apiPost_eq. cbn.
  destruct (api_answer env "/login" (LoginBody c) (timeline w))
    as [err|data] eqn:Ha; cbn.
  - destruct (is_unauthorized err) eqn:Hun; cbn; [|done].
    destruct Hno. exists c. split; [done|].
    apply api_answer_unauthorized. eauto.
  - by storage_simpl.
Qed.

(** Tier 2 removes a non-empty cookie when the login request is answered
    401. *)
Lemma init_tier2_clears_cookie env c w :
  c ≠ "" → answers_401 env "/login" (LoginBody c) (timeline w) →
  getSavedCookie (run (init_tier2 env (Some c)) w) = None.
Proof.
  intros Hne H401. unfold init_tier2. js_unfold. cbn.
  apply truthy_true in Hne. rewrite Hne.
  rewrite apiPost_eq. cbn.
  apply api_answer_unauthorized in H401 as (err & -> & ->). cbn.
  by storage_simpl.
Qed.

(** C1.  The persisted cookie is removed only by an explicit HTTP 401
    answer to the login request, in [tryReauthenticate] and in tier 2 of
    [init] alike.  Whenever that request is not answered with 401 (a
    network failure, another status, a malformed body, or no request at
    all) the cookie in [localStorage] is what it was; when a non-empty
    cookie is answered with 401 it is removed (in [init], provided tier 1
    did not already restore the session). *)
Theorem stored_cookie_cleared_only_on_401 env w :
  (¬ (∃ c, getSavedCookie w = Some c ∧
           answers_401 env "/login" (LoginBody c) (timeline w)) →
   getSavedCookie (run (tryReauthenticate env) w) = getSavedCookie w) ∧
  (∀ c, getSavedCookie w = Some c → c ≠ "" →
        answers_401 env "/login" (LoginBody c) (timeline w) →
        getSavedCookie (run (tryReauthenticate env) w) = None) ∧
  (¬ (∃ c, getSavedCookie w = Some c ∧
           answers_401 env "/login" (LoginBody c) (tier2_history w)) →
   getSavedCookie (run (init env) w) = getSavedCookie w) ∧
  (∀ c, getSavedCookie w = Some c → c ≠ "" →
        (∀ sid, getSavedSessionId w = Some sid → sid ≠ "" →
                ∃ err, api_answer env "/validate-session" (ValidateBody sid)
                         (timeline w) = inl err) →
        answers_401 env "/login" (LoginBody c) (tier2_history w) →
        getSavedCookie (run (init env) w) = None).
Proof.
  split; [|split; [|split]].
  - intros Hno. unfold tryReauthenticate. js_unfold. cbn.
    destruct (localStorage w !! COOKIE_STORAGE_KEY) as [c|] eqn:Hc; [|done]. cbn.
    destruct (truthy c) eqn:Ht; cbn; [|done].
    rewrite apiPost_eq. cbn.
    destruct (api_answer env "/login" (LoginBody c) (timeline w))
      as [err|data] eqn:Ha; cbn.
    + destruct (is_unauthorized err) eqn:Hun; cbn; [|done].
      destruct Hno. exists c. split; [done|].
      apply api_answer_unauthorized. eauto.
    + by storage_simpl.
  - intros c Hc Hne H401. unfold tryReauthenticate. js_unfold. cbn.
    rewrite Hc. cbn. apply truthy_true in Hne. rewrite Hne. cbn.
    rewrite apiPost_eq. cbn.
    apply api_answer_unauthorized in H401 as (err & -> & ->). cbn.
    by storage_simpl.
  - intros Hno. unfold init, tier2_history in *.
    unfold run, mbind, mret, Js_bind, Js_ret, exec, gets. cbn.
    destruct (getSavedSessionId w) as [sid|] eqn:Hsid; cbn.
    + destruct (truthy sid) eqn:Ht; cbn.
      * rewrite apiPost_eq. cbn.
        destruct (api_answer env "/validate-session" (ValidateBody sid)
                    (timeline w)) as [err|data]; cbn; [|done].
        etrans; [apply init_tier2_keeps_cookie|]; [|by (unfold getSavedCookie; cbn; storage_simpl)].
        cbn. intros (c & Hc & H401). apply Hno. eauto.
      * by apply init_tier2_keeps_cookie.
    + by apply init_tier2_keeps_cookie.
  - intros c Hc Hne Htier1 H401. unfold init, tier2_history in *.
    unfold run, mbind, mret, Js_bind, Js_ret, exec, gets. cbn.
    rewrite Hc.
    destruct (getSavedSessionId w) as [sid|] eqn:Hsid; cbn.
    + destruct (truthy sid) eqn:Ht; cbn.
      * rewrite apiPost_eq. cbn.
        destruct (Htier1 sid eq_refl) as [err ->]; [by apply truthy_true|].
        cbn. by apply init_tier2_clears_cookie.
      * by apply init_tier2_clears_cookie.
    + by apply init_tier2_clears_cookie.
Qed.

(* ====================================================================== *)
(** * Start-up *)

(** Tier 1 on its own: a non-empty persisted session id that the server
    validates is adopted, after exactly one request. *)
Lemma init_tier1_restores env w sid data :
  getSavedSessionId w = Some sid → sid ≠ "" →
  api_answer env "/validate-session" (ValidateBody sid) (timeline w) = inr data →
  run (init env) w =
    navigateTo ScreenPasteLink
      (set_state (with_sessionId (Some sid))
         (log_event (api_call "/validate-session" (ValidateBody sid)) w)).
Proof.
  intros Hsid Hne Hok. unfold init.
  unfold run, mbind, mret, Js_bind, Js_ret, exec, gets. cbn.
  rewrite Hsid. cbn. apply truthy_true in Hne. rewrite Hne. cbn.
  rewrite apiPost_eq. cbn. by rewrite Hok.
Qed.

(** C2.  Start-ups that find a (non-empty) persisted session id which the
    validate operation accepts each time: every one of them sends the
    validation request and nothing else, so no login request is ever
    issued; the session id is adopted as [state.sessionId], the paste-link
    screen is shown, and [localStorage] is left as it was. *)
Theorem init_tier1_only env page sid n w :
  getSavedSessionId w = Some sid → sid ≠ "" →
  (∀ k, (k < n)%nat →
        ∃ data,
          api_answer env "/validate-session" (ValidateBody sid)
            (timeline w ++
               replicate k (api_call "/validate-session" (ValidateBody sid)))
          = inr data) →
  timeline (startups env page n w)
    = timeline w ++ replicate n (api_call "/validate-session" (ValidateBody sid)) ∧
  login_calls (timeline (startups env page n w)) = login_calls (timeline w) ∧
  localStorage (startups env page n w) = localStorage w ∧
  ((0 < n)%nat →
   sessionId (state (startups env page n w)) = Some sid ∧
   active (dom (startups env page n w)) = Some ScreenPasteLink).
Proof.
  revert w. induction n as [|n IH]; intros w Hsid Hne Hok.
  - cbn. rewrite app_nil_r. repeat split; try done; lia.
  - destruct (Hok 0%nat) as [data Hdata]; [lia|].
    cbn in Hdata. rewrite app_nil_r in Hdata.
    assert (Hstep : startup env page w =
              navigateTo ScreenPasteLink
                (set_state (with_sessionId (Some sid))
                   (log_event (api_call "/validate-session" (ValidateBody sid))
                      (reload page w)))).
    { unfold startup. by apply (init_tier1_restores _ _ _ data). }
    destruct (IH (startup env page w)) as (Htl & Hlog & Hst & Hses).
    + by rewrite Hstep.
    + done.
    + intros k Hk. rewrite Hstep. cbn.
      destruct (Hok (S k)) as [d Hd]; [lia|]. exists d.
      rewrite <- Hd. f_equal. cbn. by rewrite <- app_assoc.
    + cbn [startups]. rewrite Hlog, Htl, Hst. split; [|split; [|split]].
      * rewrite Hstep. cbn. by rewrite <- app_assoc.
      * rewrite Hstep. cbn. unfold login_calls. rewrite filter_app.
        rewrite filter_cons_False, filter_nil, app_nil_r; [done|]. cbn. done.
      * by rewrite Hstep.
      * intros _. destruct n as [|n'].
        -- cbn. rewrite Hstep. done.
        -- apply Hses. lia.
Qed.

Lemma init_tier1_only_witness :
  getSavedSessionId (fresh_world returning_storage) = Some "sid-1" ∧
  timeline (startups healthy_server fresh_dom 3 (fresh_world returning_storage))
    = replicate 3 (api_call "/validate-session" (ValidateBody "sid-1")) ∧
  login_calls
    (timeline (startups healthy_server fresh_dom 3 (fresh_world returning_storage)))
    = [] ∧
  sessionId
    (state (startups healthy_server fresh_dom 3 (fresh_world returning_storage)))
    = Some "sid-1".
Proof.
  assert (H1 : getSavedSessionId (fresh_world returning_storage) = Some "sid-1")
    by (vm_compute; reflexivity).
  assert (H2 : "sid-1" ≠ "") by discriminate.
  destruct (init_tier1_only healthy_server fresh_dom "sid-1" 3
              (fresh_world returning_storage) H1 H2) as (Ht & Hl & _ & Hs).
  - intros k _. eexists. reflexivity.
  - split; [exact H1|]. split; [exact Ht|]. split; [exact Hl|].
    apply Hs. lia.
Defined.

(* ====================================================================== *)
(** * Fetching comments *)

(** C8.  When the trimmed input does not match [INSTAGRAM_URL_RE] (the
    empty input included), [handleFetchComments] only shows a validation
    message in the URL error paragraph: no event is added to the timeline,
    so no request is sent and nothing is awaited before the message
    appears, and [state] and [localStorage] are unchanged. *)
Theorem handleFetchComments_rejects_malformed env w :
  RegExp_test INSTAGRAM_URL_RE (trim (urlInput (dom w))) = false →
  (∃ message,
     message ≠ "" ∧
     run (handleFetchComments env) w = showError UrlError message w) ∧
  timeline (run (handleFetchComments env) w) = timeline w ∧
  state (run (handleFetchComments env) w) = state w ∧
  localStorage (run (handleFetchComments env) w) = localStorage w ∧
  hidden (urlError (dom (run (handleFetchComments env) w))) = false.
Proof.
  intros Hre. unfold handleFetchComments. js_unfold. cbn.
  destruct (truthy (trim (urlInput (dom w)))); cbn.
  - rewrite Hre. cbn. split; [|done]. eexists. split; [|reflexivity]. done.
  - split; [|done]. eexists. split; [|reflexivity]. done.
Qed.

Lemma handleFetchComments_rejects_malformed_witness :
  RegExp_test INSTAGRAM_URL_RE (trim "not-a-url") = false ∧
  timeline (run (handleFetchComments healthy_server)
              (signed_in_world "not-a-url")) = [] ∧
  textContent
    (urlError (dom (run (handleFetchComments healthy_server)
                      (signed_in_world "not-a-url"))))
    = "That doesn't look like a valid Instagram post URL.".
Proof.
  assert (H : RegExp_test INSTAGRAM_URL_RE
                (trim (urlInput (dom (signed_in_world "not-a-url")))) = false)
    by (vm_compute; reflexivity).
  destruct (handleFetchComments_rejects_malformed healthy_server
              (signed_in_world "not-a-url") H) as (_ & Ht & _).
  split; [exact H|]. split; [exact Ht|]. vm_compute. reflexivity.
Defined.

(** The pattern accepts the usual post links, in any letter case, and
    rejects look-alikes. *)
Example INSTAGRAM_URL_RE_examples :
  map (RegExp_test INSTAGRAM_URL_RE)
    [ "https://www.instagram.com/p/Cabc-12_3/";
      "http://instagram.com/reel/xyz";
      "HTTPS://WWW.INSTAGRAM.COM/TV/a/?igshid=1";
      "https://instagram.com/p/";
      "https://www.instagram.com/stories/abc";
      "ftp://instagram.com/p/abc";
      "not-a-url" ]
  = [true; true; true; false; false; false; false].
Proof. vm_compute. reflexivity. Qed.


(* ====================================================================== *)
(** * Binary64 arithmetic

    What is needed of [SFmul] to bound the index drawn by the shuffle:
    shifting a mantissa right keeps its integer quotient and remembers
    whether the remainder reaches one half, so that rounding to nearest
    moves the value by at most half a unit of the shift. *)



Lemma iter_pos_nat {A} (f : A → A) p x :
  SpecFloat.iter_pos f p x = Nat.iter (Pos.to_nat p) f x.
Proof.
  revert x. induction p as [p IH|p IH|]; intros x; cbn [SpecFloat.iter_pos].
  - rewrite !IH, Pos2Nat.inj_xI, <- Nat.iter_add, <- Nat.iter_succ_r.
    f_equal. lia.
  - rewrite !IH, Pos2Nat.inj_xO, <- Nat.iter_add. f_equal. lia.
  - done.
Qed.

Lemma shr_1_spec m r s :
  0 ≤ m →
  shr_m (shr_1 (Build_shr_record m r s)) = m / 2 ∧
  shr_r (shr_1 (Build_shr_record m r s)) = Z.odd m.
Proof.
  intros Hm. destruct m as [|[p|p|]|p]; cbn [shr_1 shr_m shr_r]; try lia.
  - done.
  - split; [|done]. apply (Z.div_unique _ _ _ 1); lia.
  - split; [|done]. apply (Z.div_unique _ _ _ 0); lia.
  - done.
Qed.

Lemma shr_iter_spec k M r s :
  0 ≤ M →
  let R := Nat.iter k shr_1 (Build_shr_record M r s) in
  shr_m R = M / 2 ^ Z.of_nat k ∧
  ((0 < k)%nat → shr_r R = true → 2 ^ (Z.of_nat k - 1) ≤ M mod 2 ^ Z.of_nat k).
Proof.
  intros HM. induction k as [|k [IHm IHr]]; cbn zeta.
  - cbn. split; [by rewrite Z.div_1_r|lia].
  - cbn zeta in IHm, IHr. rewrite Nat.iter_succ.
    assert (Hq : 0 ≤ M / 2 ^ Z.of_nat k) by (apply Z.div_pos; lia).
    destruct (Nat.iter k shr_1 _) as [m r' s']. cbn [shr_m shr_r] in IHm, IHr.
    subst m.
    destruct (shr_1_spec (M / 2 ^ Z.of_nat k) r' s' Hq) as [-> ->].
    replace (Z.of_nat (S k)) with (Z.of_nat k + 1) by lia.
    rewrite Z.pow_add_r, Z.pow_1_r by lia.
    replace (Z.of_nat k + 1 - 1) with (Z.of_nat k) by lia.
    assert (HP : 0 < 2 ^ Z.of_nat k) by (apply Z.pow_pos_nonneg; lia).
    split; [by rewrite Z.div_div by lia|].
    intros _ Hodd. rewrite Z.rem_mul_r by lia.
    pose proof (Zmod_odd (M / 2 ^ Z.of_nat k)) as Hmod. rewrite Hodd in Hmod.
    pose proof (Z.mod_pos_bound M (2 ^ Z.of_nat k) HP). lia.
Qed.

(** Shifting an exact mantissa right by [p] bits. *)
Lemma shr_exact M e p :
  0 ≤ M →
  ∃ R, shr (Build_shr_record M false false) e p = (R, e + Z.max p 0) ∧
       shr_m R = M / 2 ^ Z.max p 0 ∧
       (shr_r R = true → 0 < p ∧ 2 ^ (p - 1) ≤ M mod 2 ^ p).
Proof.
  intros HM. destruct p as [|p|p]; cbn [shr].
  - eexists. split; [by rewrite Z.add_0_r|]. cbn. by rewrite Z.div_1_r.
  - rewrite iter_pos_nat.
    destruct (shr_iter_spec (Pos.to_nat p) M false false HM) as [Hm Hr].
    rewrite positive_nat_Z in Hm, Hr.
    eexists. split; [by rewrite Z.max_l by lia|]. rewrite Z.max_l by lia.
    split; [exact Hm|]. intros H. split; [lia|]. apply Hr; [lia|done].
  - eexists. split; [by rewrite Z.max_r, Z.add_0_r by lia|].
    rewrite Z.max_r by lia. cbn. by rewrite Z.div_1_r.
Qed.

(** Rounding to nearest after such a shift is within half a unit. *)
Lemma round_nearest_even_shr M p R :
  0 ≤ M →
  shr_m R = M / 2 ^ Z.max p 0 →
  (shr_r R = true → 0 < p ∧ 2 ^ (p - 1) ≤ M mod 2 ^ p) →
  let m1 := round_nearest_even (shr_m R) (loc_of_shr_record R) in
  0 ≤ m1 ≤ M + 1 ∧
  m1 * 2 ^ Z.max p 0 ≤ M + (if 0 <? p then 2 ^ (p - 1) else 0).
Proof.
  intros HM Hm Hr. cbn zeta.
  set (P := 2 ^ Z.max p 0) in *.
  assert (HP : 0 < P) by (apply Z.pow_pos_nonneg; lia).
  assert (Hq : 0 ≤ M / P) by (apply Z.div_pos; lia).
  assert (Hle : M / P * P ≤ M).
  { rewrite Z.mul_comm. apply Z.mul_div_le. lia. }
  assert (Hle' : M / P ≤ M) by nia.
  assert (Hh : 0 ≤ (if 0 <? p then 2 ^ (p - 1) else 0)).
  { destruct (0 <? p) eqn:Hp; [|lia]. apply Z.ltb_lt in Hp.
    apply Z.pow_nonneg. lia. }
  destruct R as [m [] s]; cbn [shr_m shr_r loc_of_shr_record] in *; subst m.
  - destruct (Hr eq_refl) as [Hp Hrem].
    assert (Hup : (M / P + 1) * P ≤ M + 2 ^ (p - 1)).
    { unfold P. rewrite Z.max_l by lia.
      pose proof (Z.div_mod M (2 ^ p)) as Hdm.
      assert (H2 : 2 ^ p = 2 * 2 ^ (p - 1)).
      { rewrite <- Z.pow_succ_r by lia. f_equal. lia. }
      assert (0 < 2 ^ p) by (apply Z.pow_pos_nonneg; lia).
      specialize (Hdm ltac:(lia)). nia. }
    replace (0 <? p) with true in * by (symmetry; apply Z.ltb_lt; lia).
    destruct s; cbn [round_nearest_even].
    + split; [lia|exact Hup].
    + destruct (Z.even (M / P)); [|split; [lia|exact Hup]].
      split; [lia|]. lia.
  - destruct s; cbn [round_nearest_even]; (split; [lia|]); lia.
Qed.

Lemma digits2_pos_bounds m :
  2 ^ (Zpos (digits2_pos m) - 1) ≤ Zpos m < 2 ^ Zpos (digits2_pos m).
Proof.
  induction m as [m IH|m IH|]; cbn [digits2_pos]; [| |done].
  all: rewrite Pos2Z.inj_succ;
    replace (Z.succ (Zpos (digits2_pos m)) - 1) with (Zpos (digits2_pos m))
      by lia;
    assert (H2 : 2 ^ Zpos (digits2_pos m)
                 = 2 * 2 ^ (Zpos (digits2_pos m) - 1))
      by (rewrite <- Z.pow_succ_r by lia; f_equal; lia);
    rewrite Z.pow_succ_r by lia; lia.
Qed.

Lemma Zdigits2_le m k : 0 ≤ k → 0 ≤ m < 2 ^ k → 0 ≤ Zdigits2 m ≤ k.
Proof.
  intros Hk [H0 Hm]. destruct m as [|m|m]; cbn [Zdigits2]; [lia| |lia].
  destruct (digits2_pos_bounds m) as [Hlo _]. split; [lia|].
  destruct (decide (Zpos (digits2_pos m) ≤ k)) as [|Hgt]; [done|].
  assert (2 ^ k ≤ 2 ^ (Zpos (digits2_pos m) - 1))
    by (apply Z.pow_le_mono_r; lia).
  lia.
Qed.

(** What [binary_round_aux] returns for an exact positive mantissa: the
    mantissa and exponent before the final classification, with the value
    at most half a unit of the first shift above the exact one. *)
Lemma binary_round_aux_upper (M : positive) e k :
  0 ≤ k → Zpos M + 1 < 2 ^ k →
  let p := SpecFloat.fexp 53 1024 (Zpos (digits2_pos M) + e) - e in
  let e1 := e + Z.max p 0 in
  ∃ m2 e2,
    binary_round_aux 53 1024 false (Zpos M) e loc_Exact
      = match m2 with
        | Z0 => S754_zero false
        | Zpos m =>
            if e2 <=? 1024 - 53 then S754_finite false m e2
            else S754_infinity false
        | Zneg _ => S754_nan
        end ∧
    0 ≤ m2 ∧ e ≤ e2 ∧
    e2 ≤ Z.max (Z.max (k + e1 - 53) (-1074)) e1 ∧
    m2 * 2 ^ (e2 - e) ≤ Zpos M + (if 0 <? p then 2 ^ (p - 1) else 0).
Proof.
  intros Hk HM p e1.
  unfold binary_round_aux, shr_fexp.
  change (shr_record_of_loc (Zpos M) loc_Exact)
    with (Build_shr_record (Zpos M) false false).
  change (Zdigits2 (Zpos M)) with (Zpos (digits2_pos M)).
  fold p.
  destruct (shr_exact (Zpos M) e p ltac:(lia)) as (R & -> & Hm & Hr).
  destruct (round_nearest_even_shr (Zpos M) p R ltac:(lia) Hm Hr) as [Hm1 Hup].
  fold e1. set (m1 := round_nearest_even (shr_m R) (loc_of_shr_record R)) in *.
  change (shr_record_of_loc m1 loc_Exact) with (Build_shr_record m1 false false).
  set (p2 := SpecFloat.fexp 53 1024 (Zdigits2 m1 + e1) - e1).
  destruct (shr_exact m1 e1 p2 ltac:(lia)) as (R2 & -> & Hm2 & _).
  exists (shr_m R2), (e1 + Z.max p2 0).
  split; [reflexivity|].
  set (P := 2 ^ Z.max p 0) in *. set (P2 := 2 ^ Z.max p2 0) in *.
  assert (HP : 0 < P) by (apply Z.pow_pos_nonneg; lia).
  assert (HP2 : 0 < P2) by (apply Z.pow_pos_nonneg; lia).
  assert (Hd : 0 ≤ Zdigits2 m1 ≤ k) by (apply Zdigits2_le; lia).
  assert (Hq2 : 0 ≤ m1 / P2) by (apply Z.div_pos; lia).
  assert (Hle2 : m1 / P2 * P2 ≤ m1).
  { rewrite Z.mul_comm. apply Z.mul_div_le. lia. }
  split; [lia|]. split; [lia|]. split.
  { unfold p2, SpecFloat.fexp, emin. lia. }
  replace (e1 + Z.max p2 0 - e) with (Z.max p2 0 + Z.max p 0) by lia.
  rewrite Z.pow_add_r by lia. fold P P2. rewrite Hm2. nia.
Qed.

Lemma digits2_pos_unique m k :
  2 ^ (k - 1) ≤ Zpos m < 2 ^ k → Zpos (digits2_pos m) = k.
Proof.
  intros [Hlo Hhi]. destruct (digits2_pos_bounds m) as [Hlo' Hhi'].
  set (d := Zpos (digits2_pos m)) in *.
  assert (Hd : 0 < d) by (unfold d; lia).
  assert (Hk : 0 < k).
  { destruct (Z.lt_trichotomy k 0) as [Hn|[->|Hp]]; [|cbn in Hhi; lia|done].
    rewrite Z.pow_neg_r in Hhi by lia. lia. }
  destruct (Z.lt_trichotomy d k) as [Hlt|[Heq|Hgt]]; [|done|].
  - assert (2 ^ d ≤ 2 ^ (k - 1)) by (apply Z.pow_le_mono_r; lia). lia.
  - assert (2 ^ k ≤ 2 ^ (d - 1)) by (apply Z.pow_le_mono_r; lia). lia.
Qed.

(** A canonical mantissa is returned as it is. *)
Lemma binary_round_aux_canonical s m e :
  canonical_mantissa 53 1024 m e = true → e ≤ 1024 - 53 →
  binary_round_aux 53 1024 s (Zpos m) e loc_Exact = S754_finite s m e.
Proof.
  intros Hc He. unfold canonical_mantissa in Hc. apply Z.eqb_eq in Hc.
  unfold binary_round_aux, shr_fexp.
  change (Zdigits2 (Zpos m)) with (Zpos (digits2_pos m)).
  rewrite Hc, Z.sub_diag. cbn [shr_record_of_loc shr shr_m loc_of_shr_record
    round_nearest_even].
  change (Zdigits2 (Zpos m)) with (Zpos (digits2_pos m)).
  rewrite Hc, Z.sub_diag. cbn [shr_record_of_loc shr shr_m].
  by rewrite (proj2 (Z.leb_le _ _) He).
Qed.

Lemma iter_xO_spec m d : Zpos (Pos.iter xO m d) = Zpos m * 2 ^ Zpos d.
Proof.
  change (Pos.iter xO m d) with (shift_pos d m).
  rewrite shift_pos_correct, Zpower_pos_nat, Zpower_nat_Z, positive_nat_Z. lia.
Qed.

(** A positive integer below 2^53 as a binary64 number: the mantissa is
    the integer shifted left to 53 bits. *)
Lemma Number_of_nat_finite n :
  (0 < n)%nat → Z.of_nat n < 2 ^ 53 →
  ∃ mz en,
    Number_of_nat n = S754_finite false mz en ∧
    -52 ≤ en ≤ 0 ∧ Zpos mz = Z.of_nat n * 2 ^ (- en) ∧
    2 ^ 52 ≤ Zpos mz < 2 ^ 53.
Proof.
  intros Hn Hlt. unfold Number_of_nat.
  destruct (Z.of_nat n) as [|p|p] eqn:Hp; [lia| |lia]. clear Hp Hn n.
  cbn [binary_normalize]. unfold binary_round, shl_align.
  destruct (digits2_pos_bounds p) as [Hlo Hhi].
  set (d := Zpos (digits2_pos p)) in *.
  assert (Hd : 1 ≤ d ≤ 53).
  { split; [unfold d; lia|].
    destruct (decide (d ≤ 53)) as [|Hgt]; [done|].
    assert (2 ^ 53 ≤ 2 ^ (d - 1)) by (apply Z.pow_le_mono_r; lia). lia. }
  unfold SpecFloat.fexp, emin.
  destruct (Z.max (d + 0 - 53) (3 - 1024 - 53) - 0) as [|q|q] eqn:Hq; [|lia|].
  - assert (Hd53 : d = 53) by lia.
    exists p, 0. rewrite binary_round_aux_canonical.
    + split; [done|]. split; [lia|]. split; [cbn; lia|].
      rewrite Hd53 in Hlo, Hhi. split; [exact Hlo|exact Hhi].
    + unfold canonical_mantissa, SpecFloat.fexp, emin. fold d.
      apply Z.eqb_eq. lia.
    + lia.
  - assert (Hqd : Zpos q = 53 - d) by lia.
    assert (Hm : Zpos (Pos.iter xO p q) = Zpos p * 2 ^ (53 - d))
      by (rewrite iter_xO_spec; f_equal; f_equal; lia).
    assert (Hpow : 2 ^ 53 = 2 ^ d * 2 ^ (53 - d)).
    { rewrite <- Z.pow_add_r by lia. f_equal. lia. }
    assert (Hpow' : 2 ^ 52 = 2 ^ (d - 1) * 2 ^ (53 - d)).
    { rewrite <- Z.pow_add_r by lia. f_equal. lia. }
    assert (HP : 0 < 2 ^ (53 - d)) by (apply Z.pow_pos_nonneg; lia).
    assert (Hdig : Zpos (digits2_pos (Pos.iter xO p q)) = 53).
    { apply digits2_pos_unique. rewrite Hm.
      change (53 - 1) with 52. rewrite Hpow, Hpow'. nia. }
    exists (Pos.iter xO p q), (d - 53).
    replace (Z.max (d + 0 - 53) (3 - 1024 - 53)) with (d - 53) by lia.
    rewrite binary_round_aux_canonical.
    + split; [done|]. split; [lia|].
      replace (- (d - 53)) with (53 - d) by lia. split; [exact Hm|].
      rewrite Hm, Hpow, Hpow'. nia.
    + unfold canonical_mantissa, SpecFloat.fexp, emin. rewrite Hdig.
      apply Z.eqb_eq. lia.
    + lia.
Qed.

(** A binary64 number in [0, 1): zero, or a positive mantissa below 2^53
    scaled to less than one. *)
Lemma in_unit_interval_inv x :
  in_unit_interval x →
  (∃ s, x = S754_zero s) ∨
  (∃ m e, x = S754_finite false m e ∧ -1074 ≤ e < 0 ∧
          Zpos m < 2 ^ 53 ∧ Zpos m < 2 ^ (- e)).
Proof.
  intros (Hv & H0 & H1). destruct x as [s|s| |s m e].
  - left. by exists s.
  - by destruct s.
  - done.
  - right. destruct s; [done|]. clear H0. exists m, e. split; [done|].
    cbn [valid_binary] in Hv. unfold bounded in Hv.
    apply andb_prop in Hv as [Hc _].
    unfold canonical_mantissa, SpecFloat.fexp, emin in Hc.
    apply Z.eqb_eq in Hc.
    destruct (digits2_pos_bounds m) as [Hlo Hhi].
    set (d := Zpos (digits2_pos m)) in *.
    assert (Hd : 0 < d ≤ 53) by (unfold d; lia).
    assert (Hm53 : Zpos m < 2 ^ 53).
    { assert (2 ^ d ≤ 2 ^ 53) by (apply Z.pow_le_mono_r; lia). lia. }
    assert (Hone : Number_of_nat 1 = S754_finite false 4503599627370496 (-52))
      by (vm_compute; reflexivity).
    rewrite Hone in H1. unfold SFltb, SFcompare in H1.
    destruct (e ?= -52) eqn:He; [| |done].
    + apply Z.compare_eq in He. subst e. exfalso.
      assert (Hd53 : d = 53) by lia. rewrite Hd53 in Hlo.
      assert (Hlt : (m < 4503599627370496)%positive).
      { unfold Pos.lt, Pos.compare.
        by destruct (PosDef.Pos.compare_cont Eq m 4503599627370496). }
      assert (H52 : 2 ^ (53 - 1) = Zpos 4503599627370496)
        by (vm_compute; reflexivity).
      rewrite H52 in Hlo. apply Pos2Z.pos_lt_pos in Hlt.
      apply (Z.lt_irrefl (Zpos m)). eapply Z.lt_le_trans; [exact Hlt|exact Hlo].
    + rewrite Z.compare_lt_iff in He.
      split; [lia|]. split; [exact Hm53|].
      assert (2 ^ 53 ≤ 2 ^ (- e)) by (apply Z.pow_le_mono_r; lia). lia.
Qed.

(** The index drawn for position [i]: the floor of the rounded product of
    a number in [0, 1) and the integer [n] is one of 0, ..., n - 1.  The
    product is rounded to nearest, and the nearest binary64 number to a
    value below [n] by at least [n * 2^-53] is still below [n]. *)
Lemma floor_product_bound x n :
  in_unit_interval x → (0 < n)%nat → Z.of_nat n < 2 ^ 53 →
  ∃ j, Math_floor (Number_mul x (Number_of_nat n)) = Some j ∧
       0 ≤ j < Z.of_nat n.
Proof.
  intros Hx Hn Hlt.
  destruct (Number_of_nat_finite n Hn Hlt) as (mz & en & -> & Hen & Hmz & Hmz52 & Hmz53).
  destruct (in_unit_interval_inv x Hx) as [[s ->]|(m & e & -> & He & Hm53 & Hm1)].
  { exists 0. split; [done|lia]. }
  unfold Number_mul. cbn [SFmul xorb].
  set (M := (m * mz)%positive). set (e0 := e + en).
  assert (HM : Zpos M = Zpos m * Zpos mz) by (unfold M; lia).
  assert (H53 : 0 < 2 ^ 53) by (apply Z.pow_pos_nonneg; lia).
  assert (H106 : 2 ^ 107 = 2 * (2 ^ 53 * 2 ^ 53))
    by (rewrite <- !Z.pow_add_r, <- Z.pow_succ_r by lia; reflexivity).
  assert (HMlt : Zpos M + 1 < 2 ^ 107) by nia.
  destruct (binary_round_aux_upper M e0 107 ltac:(lia) HMlt)
    as (m2 & e2 & -> & Hm2 & He2lo & He2hi & Hup).
  destruct (digits2_pos_bounds M) as [HdMlo HdMhi].
  set (dM := Zpos (digits2_pos M)) in *.
  assert (HdM : 0 < dM ≤ 106).
  { split; [unfold dM; lia|].
    destruct (decide (dM ≤ 106)) as [|Hgt]; [done|].
    assert (2 ^ 106 ≤ 2 ^ (dM - 1)) by (apply Z.pow_le_mono_r; lia).
    assert (2 ^ 106 = 2 ^ 53 * 2 ^ 53)
      by (rewrite <- Z.pow_add_r by lia; reflexivity).
    nia. }
  set (p := SpecFloat.fexp 53 1024 (dM + e0) - e0) in *.
  unfold SpecFloat.fexp, emin in p.
  (* the value is below [n], scaled by [2 ^ (- e0)] *)
  set (E := 2 ^ (- e)) in *.
  assert (HE : 0 < E) by (apply Z.pow_pos_nonneg; lia).
  assert (Hslack : (if 0 <? p then 2 ^ (p - 1) else 0) < Zpos mz).
  { destruct (0 <? p) eqn:Hp; [|lia]. apply Z.ltb_lt in Hp.
    destruct (decide (p = dM - 53)) as [Hpd|Hpd].
    - rewrite Hpd. replace (dM - 53 - 1) with (dM - 54) by lia.
      assert (Hsplit : 2 ^ (dM - 1) = 2 ^ 53 * 2 ^ (dM - 54)).
      { rewrite <- Z.pow_add_r by lia. f_equal. lia. }
      assert (0 < 2 ^ (dM - 54)) by (apply Z.pow_pos_nonneg; lia).
      nia.
    - assert (Hp52 : p - 1 ≤ 51) by (unfold p, e0 in *; lia).
      assert (2 ^ (p - 1) ≤ 2 ^ 51) by (apply Z.pow_le_mono_r; lia).
      assert (2 ^ 52 = 2 * 2 ^ 51)
        by (rewrite <- Z.pow_succ_r by lia; reflexivity).
      assert (0 < 2 ^ 51) by (apply Z.pow_pos_nonneg; lia).
      lia. }
  assert (Hval : m2 * 2 ^ (e2 - e0) < Z.of_nat n * 2 ^ (- e0)).
  { replace (- e0) with (- en + - e) by (unfold e0; lia).
    rewrite Z.pow_add_r by lia. rewrite Z.mul_assoc, <- Hmz. fold E.
    assert (Zpos M ≤ Zpos mz * E - Zpos mz) by nia.
    lia. }
  assert (He2 : e2 ≤ 1024 - 53) by (unfold p, e0 in *; lia).
  assert (Hscale : 0 < 2 ^ (e2 - e0)) by (apply Z.pow_pos_nonneg; lia).
  destruct m2 as [|mm|mm]; [|clear Hm2|lia].
  { exists 0. cbn [Math_floor]. split; [reflexivity|lia]. }
  rewrite (proj2 (Z.leb_le _ _) He2). cbn [Math_floor cond_Zopp].
  eexists. split; [reflexivity|].
  destruct (0 <=? e2) eqn:Hs.
  - apply Z.leb_le in Hs.
    assert (Hsplit : 2 ^ (e2 - e0) = 2 ^ e2 * 2 ^ (- e0)).
    { rewrite <- Z.pow_add_r by (unfold e0; lia). f_equal; lia. }
    assert (0 < 2 ^ e2) by (apply Z.pow_pos_nonneg; lia).
    assert (0 < 2 ^ (- e0)) by (apply Z.pow_pos_nonneg; unfold e0; lia).
    split; [lia|].
    rewrite Hsplit, Z.mul_assoc in Hval.
    by apply Z.mul_lt_mono_pos_r in Hval.
  - apply Z.leb_gt in Hs.
    assert (Hsplit : 2 ^ (- e0) = 2 ^ (- e2) * 2 ^ (e2 - e0)).
    { rewrite <- Z.pow_add_r by lia. f_equal. lia. }
    assert (0 < 2 ^ (- e2)) by (apply Z.pow_pos_nonneg; lia).
    split; [apply Z.div_pos; lia|].
    apply Z.div_lt_upper_bound; [lia|].
    rewrite Hsplit, Z.mul_assoc in Hval.
    apply Z.mul_lt_mono_pos_r in Hval; [lia|done].
Qed.

(* ====================================================================== *)
(** * The shuffle *)

Section Shuffle.

Context (env : Env) (Hrandom : random_in_range env).

Lemma swap_length pool i j : length (swap pool i j) = length pool.
Proof.
  unfold swap. destruct (pool !! i), (pool !! j); [|done..].
  by rewrite !length_insert.
Qed.

(** Exchanging two positions of an array permutes it. *)
Lemma swap_Permutation pool i j :
  (i < length pool)%nat → (j < length pool)%nat → swap pool i j ≡ₚ pool.
Proof.
  intros Hi Hj. unfold swap.
  destruct (pool !! i) as [x|] eqn:Hx; [|by apply lookup_ge_None in Hx; lia].
  destruct (pool !! j) as [y|] eqn:Hy; [|by apply lookup_ge_None in Hy; lia].
  apply Permutation_inj. split; [by rewrite !length_insert|].
  exists (λ k, if decide (k = i) then j else if decide (k = j) then i else k).
  split.
  - intros a b. repeat case_decide; intros; subst; congruence.
  - intros k. rewrite !list_lookup_insert, !length_insert.
    repeat case_decide; subst; try done; try lia; try congruence.
    all: destruct_and?; try lia; try congruence.
Qed.

(** The index drawn for position [i] lies in [0, i]. *)
Lemma random_index_bound k i :
  Z.of_nat i + 1 < 2 ^ 53 →
  ∃ j, Math_floor (Number_mul (random env k) (Number_of_nat (i + 1))) = Some j ∧
       0 ≤ j ≤ Z.of_nat i.
Proof.
  intros Hi.
  destruct (floor_product_bound (random env k) (i + 1) (Hrandom k))
    as (j & Hj & Hr); [lia|lia|].
  exists j. split; [exact Hj|lia].
Qed.

(** The shuffle loop only advances the random source; its result is a
    permutation of the array it was given. *)
Lemma shuffle_from_spec i pool w :
  (i < length pool)%nat → Z.of_nat (length pool) < 2 ^ 53 →
  ∃ pool',
    shuffle_from env i pool w = (pool', after_randoms i w) ∧ pool' ≡ₚ pool.
Proof.
  revert pool w. induction i as [|i IH]; intros pool w Hi Hlen.
  - exists pool. split; [|done]. by destruct w.
  - cbn [shuffle_from]. unfold mbind, Js_bind, Math_random.
    destruct (random_index_bound (randoms_drawn w) (S i)) as (j & -> & Hj);
      [lia|].
    rewrite (proj2 (Z.leb_le 0 j)) by lia.
    destruct (IH (swap pool (S i) (Z.to_nat j))
                {| state := state w; localStorage := localStorage w;
                   dom := dom w; timeline := timeline w;
                   randoms_drawn := S (randoms_drawn w) |})
      as (pool' & Heq & Hperm).
    { rewrite swap_length. lia. }
    { by rewrite swap_length. }
    exists pool'. split.
    + rewrite Heq. unfold after_randoms. cbn. do 2 f_equal. lia.
    + rewrite Hperm. apply swap_Permutation; lia.
Qed.

Lemma CONGRATS_MESSAGES_NoDup : NoDup CONGRATS_MESSAGES.
Proof. apply (bool_decide_unpack _). vm_compute. exact I. Qed.

(** [shuffleCongratsMessages] returns the ten messages in some order. *)
Lemma shuffleCongratsMessages_spec w :
  ∃ pool,
    shuffleCongratsMessages env w = (pool, after_randoms 9 w) ∧
    pool ≡ₚ CONGRATS_MESSAGES.
Proof.
  unfold shuffleCongratsMessages.
  destruct (shuffle_from_spec 9 CONGRATS_MESSAGES w) as (pool & Heq & Hp).
  - cbn. lia.
  - cbn. lia.
  - exists pool. split; [exact Heq|exact Hp].
Qed.

End Shuffle.

(* ====================================================================== *)
(** * The reveal sequence *)

#[global] Arguments String_of_nat : simpl never.
#[global] Arguments message_for : simpl never.

(** One countdown: the view starts at "05" with an empty ring, ticks down
    to "00" with a full ring, and one event is recorded. *)
Lemma animateCountdown_eq w :
  animateCountdown w =
    (tt,
     log_event
       (EvCountdown (with_countdown "05" 0%Q (reveal (dom w))) five_ticks)
       (update_reveal (with_countdown "00" (5 # 5)%Q) w)).
Proof. reflexivity. Qed.

#[global] Arguments animateCountdown : simpl never.

Lemma reveal_from_spec pool all todo i w :
  (i + todo = length all)%nat →
  ∃ evs,
    timeline (run (reveal_from pool all todo i) w) = timeline w ++ evs ∧
    length evs = (2 * todo)%nat ∧
    omap phase_of evs = schedule_from pool i (drop i all) ∧
    state (run (reveal_from pool all todo i) w) = state w ∧
    localStorage (run (reveal_from pool all todo i) w) = localStorage w ∧
    randoms_drawn (run (reveal_from pool all todo i) w) = randoms_drawn w.
Proof.
  revert i w. induction todo as [|todo IH]; intros i w Hlen.
  - exists []. cbn. rewrite app_nil_r, drop_ge by lia. done.
  - destruct (all !! i) as [name|] eqn:Hname;
      [|apply lookup_ge_None in Hname; lia].
    cbn [reveal_from]. unfold run, mbind, Js_bind, exec, wait.
    rewrite animateCountdown_eq, Hname.
    match goal with
    | |- context [reveal_from pool all todo (S i) ?w2] => set (W2 := w2)
    end.
    destruct (IH (S i) W2) as (evs & Htl & Hn & Hph & Hst & Hls & Hrd); [lia|].
    unfold run in *.
    eexists (_ :: _ :: evs).
    rewrite Htl, Hst, Hls, Hrd. subst W2. cbn.
    rewrite <- !app_assoc. split; [reflexivity|].
    split; [lia|]. split; [|done].
    rewrite (drop_S _ _ _ Hname). cbn. rewrite Hph. reflexivity.
Qed.

(** The schedule lists, for each winner in order, a countdown and then the
    reveal of that winner. *)
Lemma schedule_from_lookup pool i names k name :
  names !! k = Some name →
  schedule_from pool i names !! (2 * k)%nat
    = Some (CountdownPhase ("FINDING WINNER " +:+ String_of_nat (i + k + 1))
              ["05"; "04"; "03"; "02"; "01"; "00"]) ∧
  schedule_from pool i names !! (2 * k + 1)%nat
    = Some (RevealPhase ("WINNER " +:+ String_of_nat (i + k + 1))
              ("@" +:+ name) (message_for pool (i + k))
              WINNER_REVEAL_SECONDS).
Proof.
  revert i k. induction names as [|n names IH]; intros i k Hk; [done|].
  destruct k as [|k].
  - injection Hk as ->. rewrite Nat.add_0_r. done.
  - cbn in Hk. destruct (IH (S i) k Hk) as [H1 H2].
    replace (2 * S k)%nat with (S (S (2 * k))) by lia.
    replace (S (S (2 * k)) + 1)%nat with (S (S (2 * k + 1))) by lia.
    cbn [schedule_from phase_pair app lookup list_lookup].
    replace (i + S k)%nat with (S i + k)%nat by lia.
    done.
Qed.

Lemma schedule_from_counts pool i names :
  length (filter (λ p, is_countdown p = true) (schedule_from pool i names))
    = length names ∧
  length (filter (λ p, is_reveal p = true) (schedule_from pool i names))
    = length names.
Proof.
  revert i. induction names as [|n names IH]; intros i; [done|].
  destruct (IH (S i)) as [H1 H2]. cbn [schedule_from phase_pair app].
  rewrite filter_cons_True, filter_cons_False by (cbn; done).
  rewrite (filter_cons_False (λ p, is_reveal p = true)) by (cbn; done).
  rewrite (filter_cons_True (λ p, is_reveal p = true)) by (cbn; done).
  cbn [length]. by rewrite H1, H2.
Qed.

(** In a shuffled pool, two winners get the same message exactly when
    their indices agree modulo the pool size. *)
Lemma message_for_shuffled pool i j :
  pool ≡ₚ CONGRATS_MESSAGES →
  message_for pool i = message_for pool j ↔ (i mod 10 = j mod 10)%nat.
Proof.
  intros Hp.
  assert (Hlen : length pool = 10%nat) by (by rewrite Hp).
  assert (Hnd : NoDup pool) by (rewrite Hp; apply CONGRATS_MESSAGES_NoDup).
  unfold message_for. rewrite Hlen.
  destruct (pool !! (i mod 10)%nat) as [x|] eqn:Hx.
  2:{ apply lookup_ge_None in Hx.
      pose proof (Nat.mod_upper_bound i 10). lia. }
  destruct (pool !! (j mod 10)%nat) as [y|] eqn:Hy.
  2:{ apply lookup_ge_None in Hy.
      pose proof (Nat.mod_upper_bound j 10). lia. }
  change (x = y ↔ (i mod 10 = j mod 10)%nat). split.
  - intros ->. by eapply NoDup_lookup.
  - intros Heq. rewrite Heq in Hx. congruence.
Qed.

(** C6.  For a winner list of length N, [runSearchingAnimation] adds
    exactly 2N events to the timeline: N countdown phases and N reveal
    phases, alternating, with countdown i before reveal i and reveal i
    before countdown i+1.  Reveal i shows winner i of the list and the
    message at index i mod 10 of the shuffled pool, which is a permutation
    of the ten catalog messages; hence winners with indices below 10 get
    pairwise distinct messages, and a message repeats only between
    indices that agree modulo 10. *)
Theorem runSearchingAnimation_sequence env winners w :
  random_in_range env →
  ∃ pool evs,
    (shuffleCongratsMessages env w).1 = pool ∧
    pool ≡ₚ CONGRATS_MESSAGES ∧
    timeline (run (runSearchingAnimation env winners) w) = timeline w ++ evs ∧
    length evs = (2 * length winners)%nat ∧
    omap phase_of evs = schedule_from pool 0 winners ∧
    length (filter (λ p, is_countdown p = true) (omap phase_of evs))
      = length winners ∧
    length (filter (λ p, is_reveal p = true) (omap phase_of evs))
      = length winners ∧
    (∀ i name, winners !! i = Some name →
       omap phase_of evs !! (2 * i)%nat
         = Some (CountdownPhase ("FINDING WINNER " +:+ String_of_nat (i + 1))
                   ["05"; "04"; "03"; "02"; "01"; "00"]) ∧
       omap phase_of evs !! (2 * i + 1)%nat
         = Some (RevealPhase ("WINNER " +:+ String_of_nat (i + 1))
                   ("@" +:+ name) (message_for pool i)
                   WINNER_REVEAL_SECONDS)) ∧
    (∀ i j, (i < 10)%nat → (j < 10)%nat → i ≠ j →
            message_for pool i ≠ message_for pool j) ∧
    (∀ i j, message_for pool i = message_for pool j ↔
            (i mod 10 = j mod 10)%nat).
Proof.
  intros Hrandom.
  destruct (shuffleCongratsMessages_spec env Hrandom w) as (pool & Heq & Hp).
  destruct (reveal_from_spec pool winners (length winners) 0
              (after_randoms 9 w)) as (evs & Htl & Hn & Hph & _); [done|].
  exists pool, evs. rewrite Heq.
  split; [done|]. split; [done|]. split.
  { unfold runSearchingAnimation, run, mbind, Js_bind, exec in *.
    rewrite Heq. destruct (reveal_from _ _ _ _ _) as [[] w2]. exact Htl. }
  split; [done|]. rewrite Hph. split; [done|].
  destruct (schedule_from_counts pool 0 winners) as [Hc Hr].
  split; [done|]. split; [done|]. split.
  { intros i name Hi. by apply (schedule_from_lookup pool 0 winners i name). }
  split.
  - intros i j Hi Hj Hne Heq'. apply (message_for_shuffled pool i j Hp) in Heq'.
    rewrite !Nat.mod_small in Heq' by done. done.
  - intros i j. by apply message_for_shuffled.
Qed.

Lemma half_in_range : random_in_range healthy_server.
Proof. intros k. repeat split; vm_compute; reflexivity. Qed.

Lemma runSearchingAnimation_sequence_witness :
  random_in_range healthy_server ∧
  ∃ pool evs,
    pool ≡ₚ CONGRATS_MESSAGES ∧
    timeline (run (runSearchingAnimation healthy_server ["alice"; "bob"; "cara"])
                (fresh_world ∅)) = evs ∧
    length evs = 6%nat ∧
    omap phase_of evs = schedule_from pool 0 ["alice"; "bob"; "cara"].
Proof.
  split; [exact half_in_range|].
  destruct (runSearchingAnimation_sequence healthy_server
              ["alice"; "bob"; "cara"] (fresh_world ∅) half_in_range)
    as (pool & evs & _ & Hp & Htl & Hn & Hph & _).
  exists pool, evs. split; [exact Hp|]. split; [exact Htl|].
  split; [exact Hn|exact Hph].
Defined.

(** The order of the spec's example: alice, bob and cara are revealed in
    list order, with three different messages. *)
Example reveal_alice_bob_cara :
  omap phase_of
    (timeline (run (runSearchingAnimation healthy_server ["alice"; "bob"; "cara"])
                 (fresh_world ∅)))
  = [ CountdownPhase "FINDING WINNER 1" ["05"; "04"; "03"; "02"; "01"; "00"];
      RevealPhase "WINNER 1" "@alice" "Congratulations!" 3;
      CountdownPhase "FINDING WINNER 2" ["05"; "04"; "03"; "02"; "01"; "00"];
      RevealPhase "WINNER 2" "@bob" "Fantastic!" 3;
      CountdownPhase "FINDING WINNER 3" ["05"; "04"; "03"; "02"; "01"; "00"];
      RevealPhase "WINNER 3" "@cara" "You're a winner!" 3 ].
Proof. vm_compute. reflexivity. Qed.

(** The product is the rounded one: seven tenths times ten is exactly
    seven in binary64 (the exact product of the stored value is a little
    less), so position 9 is exchanged with position 7. *)
Example draw_at_seven_tenths :
  Math_floor (Number_mul seven_tenths (Number_of_nat 10)) = Some 7.
Proof. vm_compute. reflexivity. Qed.

Example shuffle_at_seven_tenths :
  (shuffleCongratsMessages seven_tenths_source (fresh_world ∅)).1
  = [ "Congratulations!"; "You're a winner!"; "Fantastic!"; "Lucky you!";
      "What a pick!"; "Brilliant!"; "Amazing!"; "Incredible!";
      "Well deserved!"; "You did it!" ].
Proof. vm_compute. reflexivity. Qed.

(** The shuffle touches nothing but the random source, whatever
    [Math.random] returns. *)
Lemma shuffle_from_world env i pool w :
  (shuffle_from env i pool w).2 = after_randoms i w.
Proof.
  revert pool w. induction i as [|i IH]; intros pool w.
  - by destruct w.
  - cbn [shuffle_from]. unfold mbind, Js_bind, Math_random.
    rewrite IH. unfold after_randoms. cbn. f_equal. lia.
Qed.

(** C10.  With an empty winner list [runSearchingAnimation] adds no event:
    zero countdown phases and zero reveal phases.  [handleRunGiveaway]
    then completes: the only event is the selection request, the results
    screen is shown with an empty list, no error is displayed and the
    button is enabled again. *)
Theorem empty_winner_list_goes_to_results env w data :
  api_answer env "/pick-winners"
    (PickWinnersBody (users (state w)) (numWinners (state w))
       (minComments (state w))) (timeline w) = inr data →
  data_winners data = [] →
  timeline (run (runSearchingAnimation env []) w) = timeline w ∧
  timeline (run (handleRunGiveaway env) w)
    = timeline w ++
        [api_call "/pick-winners"
           (PickWinnersBody (users (state w)) (numWinners (state w))
              (minComments (state w)))] ∧
  omap phase_of (timeline (run (handleRunGiveaway env) w))
    = omap phase_of (timeline w) ∧
  active (dom (run (handleRunGiveaway env) w)) = Some ScreenResults ∧
  winnersList (dom (run (handleRunGiveaway env) w)) = [] ∧
  winners (state (run (handleRunGiveaway env) w)) = [] ∧
  settingsError (dom (run (handleRunGiveaway env) w))
    = {| textContent := ""; hidden := true |} ∧
  disabled (runGiveawayBtn (dom (run (handleRunGiveaway env) w))) = false.
Proof.
  intros Hans Hw.
  assert (Hanim : ∀ w0, run (runSearchingAnimation env []) w0
                        = showSearchingPhase (after_randoms 9 w0)).
  { intros w0. unfold runSearchingAnimation, shuffleCongratsMessages, run,
      mbind, Js_bind, exec.
    pose proof (shuffle_from_world env (length CONGRATS_MESSAGES - 1)
                  CONGRATS_MESSAGES w0) as Hs.
    destruct (shuffle_from _ _ _ _) as [pool w1]. cbn in Hs. subst w1.
    reflexivity. }
  split; [by rewrite Hanim|].
  unfold handleRunGiveaway.
  unfold run, mbind, mret, Js_bind, Js_ret, exec, gets. cbn.
  rewrite apiPost_eq. cbn. rewrite Hans, Hw.
  match goal with
  | |- context [runSearchingAnimation env [] ?W] =>
      pose proof (Hanim W) as Hrun; unfold run in Hrun;
      destruct (runSearchingAnimation env [] W) as [[] w2]
  end.
  cbn in Hrun. subst w2.
  cbn. rewrite omap_app. cbn. rewrite app_nil_r. done.
Qed.

Lemma empty_winner_list_goes_to_results_witness :
  data_winners (winners_payload []) = [] ∧
  timeline (run (handleRunGiveaway no_winner_server) settings_world)
    = [api_call "/pick-winners"
         (PickWinnersBody [ {| username := "alice"; comment_count := 2 |} ] 1 1)] ∧
  active (dom (run (handleRunGiveaway no_winner_server) settings_world))
    = Some ScreenResults ∧
  winnersList (dom (run (handleRunGiveaway no_winner_server) settings_world)) = [].
Proof.
  destruct (empty_winner_list_goes_to_results no_winner_server settings_world
              (winners_payload []) eq_refl eq_refl)
    as (_ & Htl & _ & Hact & Hlist & _).
  split; [reflexivity|]. split; [exact Htl|]. split; [exact Hact|exact Hlist].
Defined.

(* ====================================================================== *)
(** * Fetching comments: expiry, re-authentication, retry *)

Lemma matching_url_nonempty url :
  RegExp_test INSTAGRAM_URL_RE url = true → truthy url = true.
Proof.
  intros H. apply truthy_true. intros ->. vm_compute in H. discriminate.
Qed.

(** [fetchCommentsOnce] sends one request with the current session id. *)
Lemma fetchCommentsOnce_eq env url w :
  fetchCommentsOnce env url w =
    match api_answer env "/fetch-comments"
            (FetchCommentsBody url (sessionId (state w))) (timeline w) with
    | inr data =>
        (inr tt,
         navigateTo ScreenSettings
           (set_state (with_totalComments (total_comments data))
              (set_state (with_users (data_users data))
                 (log_event
                    (api_call "/fetch-comments"
                       (FetchCommentsBody url (sessionId (state w)))) w))))
    | inl err =>
        (inl err,
         log_event
           (api_call "/fetch-comments"
              (FetchCommentsBody url (sessionId (state w)))) w)
    end.
Proof.
  unfold fetchCommentsOnce. js_unfold. cbn. rewrite apiPost_eq.
  by destruct (api_answer _ _ _ _).
Qed.

(** Re-authentication with a stored cookie that the server accepts. *)
Lemma tryReauthenticate_success env w c data :
  getSavedCookie w = Some c → c ≠ "" →
  api_answer env "/login" (LoginBody c) (timeline w) = inr data →
  tryReauthenticate env w =
    (true,
     saveSessionId (session_id data)
       (set_state (with_sessionId (Some (session_id data)))
          (log_event (api_call "/login" (LoginBody c)) w))).
Proof.
  intros Hc Hne Hans. unfold tryReauthenticate. js_unfold. cbn.
  rewrite Hc. cbn. apply truthy_true in Hne. rewrite Hne. cbn.
  rewrite apiPost_eq. cbn. by rewrite Hans.
Qed.

(** Re-authentication that does not succeed: nothing stored to try, or
    the login request fails.  Only an unauthorized answer clears the
    stored values. *)
Lemma tryReauthenticate_failure env w :
  (∀ c, getSavedCookie w = Some c → c ≠ "" →
        ∃ err, api_answer env "/login" (LoginBody c) (timeline w) = inl err) →
  (truthy_opt (getSavedCookie w) = false ∧
   tryReauthenticate env w = (false, w)) ∨
  (∃ c err,
     getSavedCookie w = Some c ∧ c ≠ "" ∧
     api_answer env "/login" (LoginBody c) (timeline w) = inl err ∧
     tryReauthenticate env w =
       (false,
        if is_unauthorized err
        then clearSavedSessionId
               (clearSavedCookie (log_event (api_call "/login" (LoginBody c)) w))
        else log_event (api_call "/login" (LoginBody c) ) w)).
Proof.
  intros Hfail. unfold tryReauthenticate. js_unfold. cbn.
  destruct (localStorage w !! COOKIE_STORAGE_KEY) as [c|] eqn:Hc; cbn;
    [|by left].
  destruct (truthy c) eqn:Ht; cbn; [|by left].
  right. apply truthy_true in Ht.
  destruct (Hfail c eq_refl Ht) as [err Herr].
  exists c, err. rewrite apiPost_eq. cbn. rewrite Herr. cbn.
  by destruct (is_unauthorized err).
Qed.

(** C3.  A comment request answered with HTTP 401, followed by a
    successful re-authentication with the stored cookie: the handler sends
    exactly three requests (the original one, the login, and one retry of
    the same request with the same URL and the refreshed session id) and
    nothing after the retry, whatever its outcome.  If the retry succeeds
    the submission completes without the user submitting again: the
    participants and the total are stored and the settings screen is
    shown.  If the retry fails, even with another 401, its message is
    shown and no further request is made.  Either way the button is
    enabled again with its label restored. *)
Theorem fetch_retries_once_after_reauth env w c login :
  RegExp_test INSTAGRAM_URL_RE (trim (urlInput (dom w))) = true →
  answers_401 env "/fetch-comments"
    (FetchCommentsBody (trim (urlInput (dom w))) (sessionId (state w)))
    (timeline w) →
  getSavedCookie w = Some c → c ≠ "" →
  api_answer env "/login" (LoginBody c)
    (timeline w ++
       [api_call "/fetch-comments"
          (FetchCommentsBody (trim (urlInput (dom w))) (sessionId (state w)))])
    = inr login →
  timeline (run (handleFetchComments env) w)
    = timeline w ++
        [ api_call "/fetch-comments"
            (FetchCommentsBody (trim (urlInput (dom w))) (sessionId (state w)));
          api_call "/login" (LoginBody c);
          api_call "/fetch-comments"
            (FetchCommentsBody (trim (urlInput (dom w)))
               (Some (session_id login))) ] ∧
  sessionId (state (run (handleFetchComments env) w)) = Some (session_id login) ∧
  getSavedSessionId (run (handleFetchComments env) w) = Some (session_id login) ∧
  getSavedCookie (run (handleFetchComments env) w) = Some c ∧
  fetchBtn (dom (run (handleFetchComments env) w))
    = {| disabled := false; label_text := label_text (fetchBtn (dom w));
         label_hidden := false; spinner_hidden := true |} ∧
  (∀ data,
     api_answer env "/fetch-comments"
       (FetchCommentsBody (trim (urlInput (dom w))) (Some (session_id login)))
       (timeline w ++
          [ api_call "/fetch-comments"
              (FetchCommentsBody (trim (urlInput (dom w)))
                 (sessionId (state w)));
            api_call "/login" (LoginBody c) ]) = inr data →
     users (state (run (handleFetchComments env) w)) = data_users data ∧
     totalComments (state (run (handleFetchComments env) w))
       = total_comments data ∧
     active (dom (run (handleFetchComments env) w)) = Some ScreenSettings ∧
     urlError (dom (run (handleFetchComments env) w))
       = {| textContent := ""; hidden := true |}) ∧
  (∀ retryErr,
     api_answer env "/fetch-comments"
       (FetchCommentsBody (trim (urlInput (dom w))) (Some (session_id login)))
       (timeline w ++
          [ api_call "/fetch-comments"
              (FetchCommentsBody (trim (urlInput (dom w)))
                 (sessionId (state w)));
            api_call "/login" (LoginBody c) ]) = inl retryErr →
     users (state (run (handleFetchComments env) w)) = users (state w) ∧
     totalComments (state (run (handleFetchComments env) w))
       = totalComments (state w) ∧
     active (dom (run (handleFetchComments env) w)) = active (dom w) ∧
     urlError (dom (run (handleFetchComments env) w))
       = {| textContent := error_message retryErr; hidden := false |}).
Proof.
  intros Hre H401 Hc Hne Hlogin.
  apply api_answer_unauthorized in H401 as (err & Herr & Hun).
  unfold handleFetchComments.
  unfold run, mbind, mret, Js_bind, Js_ret, exec, gets. cbn.
  rewrite (matching_url_nonempty _ Hre), Hre. cbn.
  rewrite fetchCommentsOnce_eq. cbn. rewrite Herr.
  unfold handleSessionExpiry. rewrite Hun. cbn.
  unfold mbind, mret, Js_bind, Js_ret.
  erewrite tryReauthenticate_success; [|exact Hc|exact Hne|exact Hlogin].
  cbn. rewrite fetchCommentsOnce_eq. cbn. rewrite <- !app_assoc. cbn.
  destruct (api_answer env "/fetch-comments"
              (FetchCommentsBody _ (Some (session_id login))) _)
    as [retryErr|data] eqn:Hretry; cbn; rewrite <- ?app_assoc; cbn.
  - unfold getSavedSessionId, getSavedCookie. cbn. storage_simpl.
    repeat split; try done; congruence.
  - unfold getSavedSessionId, getSavedCookie. cbn. storage_simpl.
    repeat split; try done; congruence.
Qed.

Lemma fetch_retries_once_after_reauth_witness :
  answers_401 expired_session_server "/fetch-comments"
    (FetchCommentsBody post_url (Some "sid-1")) [] ∧
  timeline (run (handleFetchComments expired_session_server)
              (signed_in_world post_url))
    = [ api_call "/fetch-comments" (FetchCommentsBody post_url (Some "sid-1"));
        api_call "/login" (LoginBody "cookie-1");
        api_call "/fetch-comments" (FetchCommentsBody post_url (Some "sid-2")) ] ∧
  users (state (run (handleFetchComments expired_session_server)
                  (signed_in_world post_url)))
    = [ {| username := "alice"; comment_count := 2 |};
        {| username := "bob"; comment_count := 1 |} ] ∧
  active (dom (run (handleFetchComments expired_session_server)
                 (signed_in_world post_url))) = Some ScreenSettings.
Proof.
  assert (H401 : answers_401 expired_session_server "/fetch-comments"
                   (FetchCommentsBody post_url (Some "sid-1")) [])
    by (eexists; reflexivity).
  assert (Hre : RegExp_test INSTAGRAM_URL_RE
                  (trim (urlInput (dom (signed_in_world post_url)))) = true)
    by (vm_compute; reflexivity).
  assert (Hc : getSavedCookie (signed_in_world post_url) = Some "cookie-1")
    by (vm_compute; reflexivity).
  assert (Hne : "cookie-1" ≠ "") by discriminate.
  destruct (fetch_retries_once_after_reauth expired_session_server
              (signed_in_world post_url) "cookie-1" (login_payload "sid-2")
              Hre H401 Hc Hne eq_refl)
    as (Htl & _ & _ & _ & _ & Hok & _).
  destruct (Hok (comments_payload
                   [ {| username := "alice"; comment_count := 2 |};
                     {| username := "bob"; comment_count := 1 |} ] 3) eq_refl)
    as (Hu & _ & Ha & _).
  split; [exact H401|]. split; [exact Htl|]. split; [exact Hu|exact Ha].
Defined.

(** C4.  A comment request answered with HTTP 401 whose recovery does not
    succeed (no cookie stored, or the login request fails): the handler
    gives up on the request.  Nothing is retried; no participants are
    stored; [state.sessionId] and the persisted session id are cleared;
    the login screen is shown with a message in the login error
    paragraph (one text when the cookie was found stale and removed,
    another when it was kept because the server could not be reached);
    the button is enabled again.  No run is under way: the run controller
    is Idle, and in no other state. *)
Theorem fetch_unauthorized_without_recovery env w :
  runState w = Idle →
  RegExp_test INSTAGRAM_URL_RE (trim (urlInput (dom w))) = true →
  answers_401 env "/fetch-comments"
    (FetchCommentsBody (trim (urlInput (dom w))) (sessionId (state w)))
    (timeline w) →
  (∀ c, getSavedCookie w = Some c → c ≠ "" →
        ∃ err,
          api_answer env "/login" (LoginBody c)
            (timeline w ++
               [api_call "/fetch-comments"
                  (FetchCommentsBody (trim (urlInput (dom w)))
                     (sessionId (state w)))]) = inl err) →
  runState (run (handleFetchComments env) w) = Idle ∧
  active (dom (run (handleFetchComments env) w)) = Some ScreenLogin ∧
  hidden (loginError (dom (run (handleFetchComments env) w))) = false ∧
  textContent (loginError (dom (run (handleFetchComments env) w)))
    = (if truthy_opt (getSavedCookie (run (handleFetchComments env) w))
       then "Could not reconnect to Instagram. Please try again."
       else "Your session cookie has expired. Please paste a new one.") ∧
  sessionId (state (run (handleFetchComments env) w)) = None ∧
  getSavedSessionId (run (handleFetchComments env) w) = None ∧
  users (state (run (handleFetchComments env) w)) = users (state w) ∧
  totalComments (state (run (handleFetchComments env) w))
    = totalComments (state w) ∧
  fetchBtn (dom (run (handleFetchComments env) w))
    = {| disabled := false; label_text := label_text (fetchBtn (dom w));
         label_hidden := false; spinner_hidden := true |} ∧
  timeline (run (handleFetchComments env) w)
    = timeline w ++
        api_call "/fetch-comments"
          (FetchCommentsBody (trim (urlInput (dom w))) (sessionId (state w)))
        :: match getSavedCookie w with
           | Some c => if truthy c then [api_call "/login" (LoginBody c)] else []
           | None => []
           end.
Proof.
  intros Hidle Hre H401 Hfail.
  assert (Hbtn : disabled (runGiveawayBtn (dom w)) = false).
  { unfold runState in Hidle.
    destruct (disabled (fetchBtn (dom w))); [discriminate|].
    destruct (disabled (runGiveawayBtn (dom w))); [|done].
    by destruct (active (dom w)) as [[]|]. }
  apply api_answer_unauthorized in H401 as (err & Herr & Hun).
  unfold handleFetchComments.
  unfold run, mbind, mret, Js_bind, Js_ret, exec, gets. cbn.
  rewrite (matching_url_nonempty _ Hre), Hre. cbn.
  rewrite fetchCommentsOnce_eq. cbn. rewrite Herr.
  unfold handleSessionExpiry. rewrite Hun. cbn.
  unfold mbind, mret, Js_bind, Js_ret, gets, exec.
  match goal with
  | |- context [tryReauthenticate env ?W] =>
      destruct (tryReauthenticate_failure env W) as
        [[Hnone ->]|(c & e & Hc & Hne & Hans & ->)]
  end.
  - intros c Hc Hne. apply (Hfail c); [|done]. exact Hc.
  - unfold getSavedCookie in Hnone. cbn in Hnone.
    unfold runState, getSavedSessionId, getSavedCookie. cbn.
    rewrite Hbtn. rewrite Hnone. cbn. storage_simpl. rewrite Hnone.
    repeat split; try done.
    destruct (localStorage w !! COOKIE_STORAGE_KEY) as [c|]; [|done].
    cbn in Hnone. by rewrite Hnone.
  - unfold getSavedCookie in Hc. cbn in Hc.
    unfold runState, getSavedSessionId, getSavedCookie.
    rewrite Hc. apply truthy_true in Hne. rewrite Hne.
    destruct (is_unauthorized e); cbn.
    + storage_simpl. cbn. rewrite Hbtn. storage_simpl.
      rewrite <- app_assoc. done.
    + storage_simpl. cbn. rewrite Hbtn. storage_simpl. rewrite Hc. cbn.
      rewrite Hne. rewrite <- app_assoc. done.
Qed.

Lemma fetch_unauthorized_without_recovery_witness :
  runState (signed_in_world post_url) = Idle ∧
  answers_401 rejecting_server "/fetch-comments"
    (FetchCommentsBody post_url (Some "sid-1")) [] ∧
  runState (run (handleFetchComments rejecting_server)
              (signed_in_world post_url)) = Idle ∧
  active (dom (run (handleFetchComments rejecting_server)
                 (signed_in_world post_url))) = Some ScreenLogin ∧
  timeline (run (handleFetchComments rejecting_server)
              (signed_in_world post_url))
    = [ api_call "/fetch-comments" (FetchCommentsBody post_url (Some "sid-1"));
        api_call "/login" (LoginBody "cookie-1") ].
Proof.
  assert (Hidle : runState (signed_in_world post_url) = Idle) by reflexivity.
  assert (H401 : answers_401 rejecting_server "/fetch-comments"
                   (FetchCommentsBody post_url (Some "sid-1")) [])
    by (eexists; reflexivity).
  assert (Hre : RegExp_test INSTAGRAM_URL_RE
                  (trim (urlInput (dom (signed_in_world post_url)))) = true)
    by (vm_compute; reflexivity).
  destruct (fetch_unauthorized_without_recovery rejecting_server
              (signed_in_world post_url) Hidle Hre H401)
    as (Hrs & Hact & _ & _ & _ & _ & _ & _ & _ & Htl).
  - intros c _ _. eexists. reflexivity.
  - split; [exact Hidle|]. split; [exact H401|]. split; [exact Hrs|].
    split; [exact Hact|]. exact Htl.
Defined.

(** The same failure when the server cannot be reached for the login: the
    cookie stays in [localStorage] and the message says so. *)
Example fetch_unauthorized_then_offline :
  let env :=
    {| fetch_result := λ _ _ body,
         match body with
         | LoginBody _ => Rejected "TypeError" "Failed to fetch"
         | _ => Responded 401 (inr (error_payload "Invalid or expired session"))
         end;
       random := half |} in
  let w' := run (handleFetchComments env) (signed_in_world post_url) in
  getSavedCookie w' = Some "cookie-1" ∧
  getSavedSessionId w' = None ∧
  active (dom w') = Some ScreenLogin ∧
  textContent (loginError (dom w'))
    = "Could not reconnect to Instagram. Please try again.".
Proof. vm_compute. done. Qed.

(* ====================================================================== *)
(** * What handlers do to the document *)

(** The animation changes nothing of the document but the reveal view. *)
Lemma reveal_from_dom pool all todo i w :
  ∃ v, dom (run (reveal_from pool all todo i) w) = with_reveal v (dom w).
Proof.
  revert i w. induction todo as [|todo IH]; intros i w.
  - exists (reveal (dom w)). cbn. by destruct (dom w).
  - cbn [reveal_from]. unfold run, mbind, Js_bind, exec, wait.
    rewrite animateCountdown_eq.
    match goal with
    | |- context [reveal_from pool all todo (S i) ?w2] =>
        destruct (IH (S i) w2) as [v Hv]
    end.
    exists v. unfold run in Hv. rewrite Hv. reflexivity.
Qed.

Lemma tryReauthenticate_dom env w : dom (tryReauthenticate env w).2 = dom w.
Proof.
  unfold tryReauthenticate. js_unfold. cbn.
  destruct (localStorage w !! COOKIE_STORAGE_KEY) as [c|]; [|done]. cbn.
  destruct (truthy c); [|done]. cbn. rewrite apiPost_eq. cbn.
  destruct (api_answer _ _ _ _) as [err|data]; [|done]. cbn.
  by destruct (is_unauthorized err).
Qed.

(* ====================================================================== *)
(** * The giveaway handler, in one piece and in two halves *)

(** [handleRunGiveaway] in closed form: the request, then either the
    animation and the results, or the error message; the button is
    released in both cases. *)
Lemma handleRunGiveaway_eq env w :
  run (handleRunGiveaway env) w =
    match api_answer env "/pick-winners"
            (PickWinnersBody (users (state w)) (numWinners (state w))
               (minComments (state w))) (timeline w) with
    | inr data =>
        setButtonLoading RunGiveawayBtn false
          (showResults (data_winners data)
             (run (runSearchingAnimation env (data_winners data))
                (navigateTo ScreenSearching
                   (set_state (with_winners (data_winners data))
                      (log_event
                         (api_call "/pick-winners"
                            (PickWinnersBody (users (state w))
                               (numWinners (state w)) (minComments (state w))))
                         (setButtonLoading RunGiveawayBtn true
                            (hideError SettingsError w)))))))
    | inl err =>
        setButtonLoading RunGiveawayBtn false
          (showError SettingsError (error_message err)
             (log_event
                (api_call "/pick-winners"
                   (PickWinnersBody (users (state w)) (numWinners (state w))
                      (minComments (state w))))
                (setButtonLoading RunGiveawayBtn true
                   (hideError SettingsError w))))
    end.
Proof.
  unfold handleRunGiveaway, run, mbind, mret, Js_bind, Js_ret, exec, gets.
  rewrite apiPost_eq.
  change (timeline (setButtonLoading RunGiveawayBtn true
                      (hideError SettingsError w))) with (timeline w).
  change (state (setButtonLoading RunGiveawayBtn true
                   (hideError SettingsError w))) with (state w).
  destruct (api_answer _ _ _ _) as [err|data]; [reflexivity|].
  destruct (runSearchingAnimation env (data_winners data) _) as [[] w2].
  reflexivity.
Qed.

(** The animation, whatever [Math.random] returns: it adds two events per
    winner, all of them phases of the schedule for the shuffled pool, and
    touches neither [state] nor [localStorage]; of the document it changes
    only the reveal view, which it leaves in the searching phase. *)
Lemma runSearchingAnimation_frame env ws w :
  ∃ evs v,
    timeline (run (runSearchingAnimation env ws) w) = timeline w ++ evs ∧
    length evs = (2 * length ws)%nat ∧
    omap phase_of evs
      = schedule_from (shuffleCongratsMessages env w).1 0 ws ∧
    state (run (runSearchingAnimation env ws) w) = state w ∧
    localStorage (run (runSearchingAnimation env ws) w) = localStorage w ∧
    dom (run (runSearchingAnimation env ws) w) = with_reveal v (dom w) ∧
    searchingPhase_hidden v = false ∧ winnerReveal_hidden v = true.
Proof.
  unfold runSearchingAnimation, shuffleCongratsMessages, run, mbind, Js_bind, exec.
  pose proof (shuffle_from_world env (length CONGRATS_MESSAGES - 1)
                CONGRATS_MESSAGES w) as Hs.
  destruct (shuffle_from _ _ _ _) as [pool w1]. cbn in Hs. subst w1.
  destruct (reveal_from_spec pool ws (length ws) 0 (after_randoms 9 w))
    as (evs & Htl & Hn & Hph & Hst & Hls & _); [done|].
  destruct (reveal_from_dom pool ws (length ws) 0 (after_randoms 9 w)) as [v Hv].
  unfold run in *. destruct (reveal_from _ _ _ _ _) as [[] w2]. cbn in *.
  exists evs. eexists. rewrite Htl, Hst, Hls, Hv.
  repeat split; try done.
Qed.

(** The two halves of [handleRunGiveaway], run one after the other with
    nothing in between, are the handler. *)
Lemma handleRunGiveaway_resumes env w :
  run (handleRunGiveaway env) w =
    run (handleRunGiveaway_resume env (handleRunGiveaway_request env w).1)
      (handleRunGiveaway_request env w).2.
Proof.
  rewrite handleRunGiveaway_eq.
  unfold handleRunGiveaway_request, handleRunGiveaway_resume,
    run, mbind, mret, Js_bind, Js_ret, exec, gets.
  rewrite apiPost_eq.
  change (timeline (setButtonLoading RunGiveawayBtn true
                      (hideError SettingsError w))) with (timeline w).
  change (state (setButtonLoading RunGiveawayBtn true
                   (hideError SettingsError w))) with (state w).
  cbn [fst snd].
  destruct (api_answer _ _ _ _) as [err|data]; [reflexivity|].
  cbn [state set_state navigateTo set_dom with_winners winners].
  match goal with
  | |- context [runSearchingAnimation env ?ws ?W] =>
      destruct (runSearchingAnimation_frame env ws W)
        as (evs & v & _ & _ & _ & Hst & _);
      unfold run in Hst;
      destruct (runSearchingAnimation env ws W) as [[] W2]
  end.
  cbn [fst snd] in *. rewrite Hst. reflexivity.
Qed.

(* ====================================================================== *)
(** * Run again *)



(** Without the logout in the middle the two halves give the whole visit. *)
Example run_with_logout_halves :
  run (handleRunGiveaway_resume healthy_server
         (handleRunGiveaway_request healthy_server settings_world).1)
    (handleRunGiveaway_request healthy_server settings_world).2
  = run (handleRunGiveaway healthy_server) settings_world.
Proof. symmetry. apply handleRunGiveaway_resumes. Qed.

(** After a whole visit the user is on the results screen with three
    winners; running again keeps the session and clears the rest. *)
Example run_again_after_visit :
  active (dom finished_run) = Some ScreenResults ∧
  winners (state finished_run) = ["alice"; "bob"; "cara"] ∧
  sessionId (state (handleRunAgain finished_run)) = Some "sid-1" ∧
  getSavedSessionId (handleRunAgain finished_run) = Some "sid-1" ∧
  winners (state (handleRunAgain finished_run)) = [] ∧
  active (dom (handleRunAgain finished_run)) = Some ScreenPasteLink.
Proof. vm_compute. done. Qed.

(* ====================================================================== *)
(** * Logout *)

(** X1.  [handleLogout] signs the user out whatever the server answers:
    [state.sessionId] is cleared, the cookie and the session id are
    removed from [localStorage] (its other keys are untouched), and the
    login screen is shown without an error message.  The logout request
    is sent exactly when a non-empty session id is held, and carries it. *)
Theorem handleLogout_signs_out env w :
  sessionId (state (run (handleLogout env) w)) = None ∧
  getSavedCookie (run (handleLogout env) w) = None ∧
  getSavedSessionId (run (handleLogout env) w) = None ∧
  (∀ k, k ≠ COOKIE_STORAGE_KEY → k ≠ SESSION_ID_STORAGE_KEY →
        localStorage (run (handleLogout env) w) !! k = localStorage w !! k) ∧
  active (dom (run (handleLogout env) w)) = Some ScreenLogin ∧
  loginError (dom (run (handleLogout env) w)) = loginError (dom w) ∧
  timeline (run (handleLogout env) w)
    = timeline w ++
        (if truthy_opt (sessionId (state w))
         then [api_call "/logout" (LogoutBody (sessionId (state w)))]
         else []).
Proof.
  unfold handleLogout. js_unfold. cbn.
  destruct (truthy_opt (sessionId (state w))); cbn.
  - rewrite apiPost_eq. cbn. storage_simpl.
    repeat split; try done.
    intros k Hc Hs. by rewrite lookup_delete_ne, lookup_delete_ne.
  - storage_simpl. rewrite app_nil_r.
    repeat split; try done.
    intros k Hc Hs. by rewrite lookup_delete_ne, lookup_delete_ne.
Qed.

(** Two worlds with the same five components are the same world. *)
Lemma World_eq w1 w2 :
  state w1 = state w2 → localStorage w1 = localStorage w2 → dom w1 = dom w2 →
  timeline w1 = timeline w2 → randoms_drawn w1 = randoms_drawn w2 → w1 = w2.
Proof. destruct w1, w2. cbn. by intros -> -> -> -> ->. Qed.

(** What [handleLogout] leaves of each component of the world. *)
Lemma handleLogout_world env w :
  state (run (handleLogout env) w) = with_sessionId None (state w) ∧
  localStorage (run (handleLogout env) w)
    = delete SESSION_ID_STORAGE_KEY (delete COOKIE_STORAGE_KEY (localStorage w)) ∧
  dom (run (handleLogout env) w)
    = with_active (Some ScreenLogin) (with_appLoading_hidden true (dom w)) ∧
  timeline (run (handleLogout env) w)
    = timeline w ++
        (if truthy_opt (sessionId (state w))
         then [api_call "/logout" (LogoutBody (sessionId (state w)))]
         else []) ∧
  randoms_drawn (run (handleLogout env) w) = randoms_drawn w.
Proof.
  unfold handleLogout. js_unfold. cbn.
  destruct (truthy_opt (sessionId (state w))); cbn.
  - rewrite apiPost_eq. cbn. repeat split; reflexivity.
  - rewrite app_nil_r. repeat split; reflexivity.
Qed.

(** X2.  Logging out twice in a row is the same as logging out once: the
    second [handleLogout] sends no request and leaves the world exactly
    as the first one did. *)
Theorem handleLogout_idempotent env w :
  run (handleLogout env) (run (handleLogout env) w) = run (handleLogout env) w.
Proof.
  destruct (handleLogout_world env w) as (Hst & Hls & Hdom & Htl & Hrd).
  destruct (handleLogout_world env (run (handleLogout env) w))
    as (Hst2 & Hls2 & Hdom2 & Htl2 & Hrd2).
  apply World_eq.
  - rewrite Hst2, Hst. reflexivity.
  - rewrite Hls2, Hls.
    rewrite (delete_delete _ COOKIE_STORAGE_KEY SESSION_ID_STORAGE_KEY).
    by rewrite !delete_delete_eq.
  - rewrite Hdom2, Hdom. reflexivity.
  - rewrite Htl2, Hst. cbn. apply app_nil_r.
  - rewrite Hrd2. reflexivity.
Qed.

(* ====================================================================== *)
(** * Start-up: the second and third tiers *)

(** X3.  Tier 2 of [init]: when the stored session id fails validation
    (for any reason) and the login with the stored cookie succeeds, the
    session is restored with exactly one validation request followed by
    exactly one login request.  The new session id becomes
    [state.sessionId] and replaces the stale one in [localStorage]; the
    cookie stays; the paste-link screen is shown. *)
Theorem init_tier2_restores env w sid c err data :
  getSavedSessionId w = Some sid → sid ≠ "" →
  getSavedCookie w = Some c → c ≠ "" →
  api_answer env "/validate-session" (ValidateBody sid) (timeline w) = inl err →
  api_answer env "/login" (LoginBody c)
    (timeline w ++ [api_call "/validate-session" (ValidateBody sid)])
    = inr data →
  timeline (run (init env) w)
    = timeline w ++
        [ api_call "/validate-session" (ValidateBody sid);
          api_call "/login" (LoginBody c) ] ∧
  sessionId (state (run (init env) w)) = Some (session_id data) ∧
  getSavedSessionId (run (init env) w) = Some (session_id data) ∧
  getSavedCookie (run (init env) w) = Some c ∧
  active (dom (run (init env) w)) = Some ScreenPasteLink ∧
  loginError (dom (run (init env) w)) = loginError (dom w).
Proof.
  intros Hsid Hsne Hc Hcne Hval Hlogin. unfold init.
  unfold run, mbind, mret, Js_bind, Js_ret, exec, gets. cbn.
  rewrite Hsid, Hc. cbn.
  apply truthy_true in Hsne. rewrite Hsne. cbn.
  rewrite apiPost_eq. cbn. rewrite Hval. cbn.
  unfold init_tier2. js_unfold. cbn.
  apply truthy_true in Hcne. rewrite Hcne. cbn.
  rewrite apiPost_eq. cbn. rewrite Hlogin. cbn. storage_simpl.
  unfold getSavedCookie in Hc. rewrite Hc, <- app_assoc. done.
Qed.

Lemma init_tier2_restores_witness :
  getSavedSessionId (fresh_world returning_storage) = Some "sid-1" ∧
  getSavedCookie (fresh_world returning_storage) = Some "cookie-1" ∧
  timeline (run (init expired_session_server) (fresh_world returning_storage))
    = [ api_call "/validate-session" (ValidateBody "sid-1");
        api_call "/login" (LoginBody "cookie-1") ] ∧
  sessionId (state (run (init expired_session_server)
                      (fresh_world returning_storage))) = Some "sid-2".
Proof.
  assert (H1 : getSavedSessionId (fresh_world returning_storage) = Some "sid-1")
    by (vm_compute; reflexivity).
  assert (H2 : getSavedCookie (fresh_world returning_storage) = Some "cookie-1")
    by (vm_compute; reflexivity).
  assert (N1 : "sid-1" ≠ "") by discriminate.
  assert (N2 : "cookie-1" ≠ "") by discriminate.
  destruct (init_tier2_restores expired_session_server
              (fresh_world returning_storage) "sid-1" "cookie-1"
              (ApiError "Invalid or expired session" 401) (login_payload "sid-2")
              H1 N1 H2 N2 eq_refl eq_refl) as (Htl & Hs & _).
  split; [exact H1|]. split; [exact H2|]. split; [exact Htl|exact Hs].
Defined.

(** X4.  Tier 3 of [init]: with no usable stored credentials (each of the
    two keys absent or holding the empty string) no request is sent; the
    login screen is shown, no message is displayed, and [state] and
    [localStorage] are as before. *)
Theorem init_without_credentials env w :
  truthy_opt (getSavedSessionId w) = false →
  truthy_opt (getSavedCookie w) = false →
  run (init env) w = navigateTo ScreenLogin w.
Proof.
  intros Hs Hc. unfold init.
  unfold run, mbind, mret, Js_bind, Js_ret, exec, gets. cbn.
  rewrite Hs. unfold init_tier2. by rewrite Hc.
Qed.

Lemma init_without_credentials_witness :
  truthy_opt (getSavedSessionId (fresh_world ∅)) = false ∧
  truthy_opt (getSavedCookie (fresh_world ∅)) = false ∧
  run (init rejecting_server) (fresh_world ∅)
    = navigateTo ScreenLogin (fresh_world ∅).
Proof.
  split; [reflexivity|]. split; [reflexivity|].
  apply (init_without_credentials rejecting_server (fresh_world ∅));
    reflexivity.
Defined.

(** Tier 2 on its own, entered without a usable stored session id: at
    most one request; either the session is restored or the login screen
    is shown and still no usable session id is stored. *)
Lemma init_tier2_session env cookie w0 :
  truthy_opt (getSavedSessionId w0) = false →
  (length (timeline (run (init_tier2 env cookie) w0))
     ≤ length (timeline w0) + 1)%nat ∧
  ((active (dom (run (init_tier2 env cookie) w0)) = Some ScreenPasteLink ∧
    ∃ s, sessionId (state (run (init_tier2 env cookie) w0)) = Some s ∧
         getSavedSessionId (run (init_tier2 env cookie) w0) = Some s) ∨
   (active (dom (run (init_tier2 env cookie) w0)) = Some ScreenLogin ∧
    sessionId (state (run (init_tier2 env cookie) w0)) = sessionId (state w0) ∧
    truthy_opt (getSavedSessionId (run (init_tier2 env cookie) w0)) = false)).
Proof.
  intros Hs0. unfold init_tier2. js_unfold.
  destruct (truthy_opt cookie); cbn.
  - rewrite apiPost_eq. cbn.
    destruct (api_answer _ _ _ _) as [err|data]; cbn.
    + destruct (is_unauthorized err); cbn; rewrite length_app; cbn;
        (split; [lia|right]); storage_simpl; done.
    + rewrite length_app. cbn. split; [lia|left]. storage_simpl. eauto.
  - split; [lia|right]. done.
Qed.

(** X5.  [init] has two outcomes and sends at most two requests.  Either
    the session is restored: the paste-link screen is shown and
    [state.sessionId] is set to the session id that [localStorage] holds.
    Or the login screen is shown: [state.sessionId] is not set by [init]
    and no usable session id is left in [localStorage]. *)
Theorem init_outcomes env w :
  (length (timeline (run (init env) w)) ≤ length (timeline w) + 2)%nat ∧
  ((active (dom (run (init env) w)) = Some ScreenPasteLink ∧
    ∃ s, sessionId (state (run (init env) w)) = Some s ∧
         getSavedSessionId (run (init env) w) = Some s) ∨
   (active (dom (run (init env) w)) = Some ScreenLogin ∧
    sessionId (state (run (init env) w)) = sessionId (state w) ∧
    truthy_opt (getSavedSessionId (run (init env) w)) = false)).
Proof.
  unfold init. unfold run, mbind, mret, Js_bind, Js_ret, exec, gets. cbn.
  destruct (truthy_opt (getSavedSessionId w)) eqn:Hs; cbn.
  - apply truthy_opt_true in Hs as (sid & Hsid & Hne).
    rewrite apiPost_eq. cbn.
    destruct (api_answer _ _ _ _) as [err|data]; cbn.
    + match goal with
      | |- context [init_tier2 env ?c ?W] =>
          destruct (init_tier2_session env c W) as [Hlen Hout]
      end.
      { unfold getSavedSessionId. cbn. by storage_simpl. }
      unfold run in *. cbn in Hlen, Hout. rewrite length_app in Hlen.
      cbn in Hlen. split; [lia|exact Hout].
    + rewrite length_app. cbn. split; [lia|left]. split; [done|].
      exists sid. rewrite Hsid. split; [done|]. exact Hsid.
  - destruct (init_tier2_session env (getSavedCookie w) w Hs) as [Hlen Hout].
    unfold run in *. split; [lia|exact Hout].
Qed.

(* ====================================================================== *)
(** * Running the giveaway *)

Lemma schedule_from_length pool i ws :
  length (schedule_from pool i ws) = (2 * length ws)%nat.
Proof.
  revert i. induction ws as [|n ws IH]; intros i; [done|].
  cbn. rewrite IH. lia.
Qed.

Lemma cards_usernames (background : nat → string) ws :
  map card_username
    (imap (λ index username,
             {| card_background := background index;
                card_username := "@" +:+ username |}) ws)
  = map (λ name, "@" +:+ name) ws.
Proof.
  revert background. induction ws as [|name ws IH]; intros background; [done|].
  cbn. f_equal. apply (IH (background ∘ S)).
Qed.

(** X6.  When the selection request fails, [handleRunGiveaway] loses
    nothing: [state] (participants and both settings included),
    [localStorage] and the active screen are as before, the results list
    is untouched, no animation runs, the error's message is shown in the
    settings error paragraph and the button is enabled again. *)
Theorem handleRunGiveaway_failure_keeps_settings env w err :
  api_answer env "/pick-winners"
    (PickWinnersBody (users (state w)) (numWinners (state w))
       (minComments (state w))) (timeline w) = inl err →
  state (run (handleRunGiveaway env) w) = state w ∧
  localStorage (run (handleRunGiveaway env) w) = localStorage w ∧
  active (dom (run (handleRunGiveaway env) w)) = active (dom w) ∧
  winnersList (dom (run (handleRunGiveaway env) w)) = winnersList (dom w) ∧
  reveal (dom (run (handleRunGiveaway env) w)) = reveal (dom w) ∧
  settingsError (dom (run (handleRunGiveaway env) w))
    = {| textContent := error_message err; hidden := false |} ∧
  disabled (runGiveawayBtn (dom (run (handleRunGiveaway env) w))) = false ∧
  timeline (run (handleRunGiveaway env) w)
    = timeline w ++
        [api_call "/pick-winners"
           (PickWinnersBody (users (state w)) (numWinners (state w))
              (minComments (state w)))].
Proof.
  intros Hans. rewrite handleRunGiveaway_eq, Hans. done.
Qed.

Lemma handleRunGiveaway_failure_keeps_settings_witness :
  state (run (handleRunGiveaway rejecting_server) settings_world)
    = state settings_world ∧
  active (dom (run (handleRunGiveaway rejecting_server) settings_world))
    = Some ScreenSettings ∧
  textContent
    (settingsError (dom (run (handleRunGiveaway rejecting_server) settings_world)))
    = "Invalid or expired session".
Proof.
  destruct (handleRunGiveaway_failure_keeps_settings rejecting_server
              settings_world (ApiError "Invalid or expired session" 401) eq_refl)
    as (Hst & _ & Hact & _ & _ & Herr & _).
  split; [exact Hst|]. split; [exact Hact|]. by rewrite Herr.
Defined.

(** X7.  When the selection request succeeds with N winners,
    [handleRunGiveaway] stores them, plays exactly 2N animation phases
    after the request and ends on the results screen with one card per
    winner, in order, each showing the name behind an at sign.  The
    participants and the settings are kept, no error is shown, the reveal
    view is back in its searching phase and the button is enabled again. *)
Theorem handleRunGiveaway_success env w data :
  api_answer env "/pick-winners"
    (PickWinnersBody (users (state w)) (numWinners (state w))
       (minComments (state w))) (timeline w) = inr data →
  state (run (handleRunGiveaway env) w)
    = with_winners (data_winners data) (state w) ∧
  localStorage (run (handleRunGiveaway env) w) = localStorage w ∧
  active (dom (run (handleRunGiveaway env) w)) = Some ScreenResults ∧
  map card_username (winnersList (dom (run (handleRunGiveaway env) w)))
    = map (λ name, "@" +:+ name) (data_winners data) ∧
  settingsError (dom (run (handleRunGiveaway env) w))
    = {| textContent := ""; hidden := true |} ∧
  disabled (runGiveawayBtn (dom (run (handleRunGiveaway env) w))) = false ∧
  searchingPhase_hidden (reveal (dom (run (handleRunGiveaway env) w))) = false ∧
  winnerReveal_hidden (reveal (dom (run (handleRunGiveaway env) w))) = true ∧
  ∃ evs,
    timeline (run (handleRunGiveaway env) w)
      = timeline w ++
          api_call "/pick-winners"
            (PickWinnersBody (users (state w)) (numWinners (state w))
               (minComments (state w))) :: evs ∧
    length evs = (2 * length (data_winners data))%nat ∧
    length (omap phase_of evs) = (2 * length (data_winners data))%nat.
Proof.
  intros Hans. rewrite handleRunGiveaway_eq, Hans.
  match goal with
  | |- context [run (runSearchingAnimation env ?ws) ?W] =>
      destruct (runSearchingAnimation_frame env ws W)
        as (evs & v & Htl & Hn & Hph & Hst & Hls & Hdom & Hv1 & Hv2);
      revert Htl Hst Hls Hdom;
      generalize (run (runSearchingAnimation env ws) W);
      intros W2 Htl Hst Hls Hdom
  end.
  split; [cbn; rewrite Hst; reflexivity|].
  split; [cbn; rewrite Hls; reflexivity|].
  split; [reflexivity|].
  split; [apply cards_usernames|].
  split; [cbn; rewrite Hdom; reflexivity|]. split; [reflexivity|].
  split; [cbn; rewrite Hdom; exact Hv1|].
  split; [cbn; rewrite Hdom; exact Hv2|].
  exists evs. split.
  { cbn. rewrite Htl. cbn. rewrite <- app_assoc. reflexivity. }
  split; [exact Hn|]. rewrite Hph. apply schedule_from_length.
Qed.

Lemma handleRunGiveaway_success_witness :
  winners (state (run (handleRunGiveaway healthy_server) settings_world))
    = ["alice"; "bob"; "cara"] ∧
  active (dom (run (handleRunGiveaway healthy_server) settings_world))
    = Some ScreenResults ∧
  map card_username
    (winnersList (dom (run (handleRunGiveaway healthy_server) settings_world)))
    = ["@alice"; "@bob"; "@cara"].
Proof.
  destruct (handleRunGiveaway_success healthy_server settings_world
              (winners_payload ["alice"; "bob"; "cara"]) eq_refl)
    as (Hst & _ & Hact & Hcards & _).
  split; [by rewrite Hst|]. split; [exact Hact|exact Hcards].
Defined.

(* ====================================================================== *)
(** * Fetching comments: the first attempt *)

(** X8.  A comment request that succeeds at the first attempt: exactly one
    request is sent, carrying the trimmed link and the current session id;
    the participants and the total are stored and nothing else of [state]
    changes; [localStorage] is untouched; the settings screen is shown
    with no error, and the button is enabled again with its own label. *)
Theorem handleFetchComments_success env w data :
  RegExp_test INSTAGRAM_URL_RE (trim (urlInput (dom w))) = true →
  api_answer env "/fetch-comments"
    (FetchCommentsBody (trim (urlInput (dom w))) (sessionId (state w)))
    (timeline w) = inr data →
  state (run (handleFetchComments env) w)
    = with_totalComments (total_comments data)
        (with_users (data_users data) (state w)) ∧
  localStorage (run (handleFetchComments env) w) = localStorage w ∧
  timeline (run (handleFetchComments env) w)
    = timeline w ++
        [api_call "/fetch-comments"
           (FetchCommentsBody (trim (urlInput (dom w))) (sessionId (state w)))] ∧
  active (dom (run (handleFetchComments env) w)) = Some ScreenSettings ∧
  urlError (dom (run (handleFetchComments env) w))
    = {| textContent := ""; hidden := true |} ∧
  loginError (dom (run (handleFetchComments env) w)) = loginError (dom w) ∧
  fetchBtn (dom (run (handleFetchComments env) w))
    = {| disabled := false; label_text := label_text (fetchBtn (dom w));
         label_hidden := false; spinner_hidden := true |}.
Proof.
  intros Hre Hans. unfold handleFetchComments.
  unfold run, mbind, mret, Js_bind, Js_ret, exec, gets. cbn.
  rewrite (matching_url_nonempty _ Hre), Hre. cbn.
  rewrite fetchCommentsOnce_eq. cbn. rewrite Hans.
  repeat split; reflexivity.
Qed.

Lemma handleFetchComments_success_witness :
  RegExp_test INSTAGRAM_URL_RE
    (trim (urlInput (dom (signed_in_world ("  " +:+ post_url))))) = true ∧
  users (state (run (handleFetchComments healthy_server)
                  (signed_in_world ("  " +:+ post_url))))
    = [ {| username := "alice"; comment_count := 2 |};
        {| username := "bob"; comment_count := 1 |} ] ∧
  timeline (run (handleFetchComments healthy_server)
              (signed_in_world ("  " +:+ post_url)))
    = [api_call "/fetch-comments" (FetchCommentsBody post_url (Some "sid-1"))].
Proof.
  assert (Hre : RegExp_test INSTAGRAM_URL_RE
            (trim (urlInput (dom (signed_in_world ("  " +:+ post_url))))) = true)
    by (vm_compute; reflexivity).
  destruct (handleFetchComments_success healthy_server
              (signed_in_world ("  " +:+ post_url))
              (comments_payload
                 [ {| username := "alice"; comment_count := 2 |};
                   {| username := "bob"; comment_count := 1 |} ] 3)
              Hre eq_refl) as (Hst & _ & Htl & _).
  split; [exact Hre|]. split; [by rewrite Hst|exact Htl].
Defined.

(** X9.  A comment request that fails with anything but HTTP 401 (a
    network failure, another status, a malformed body): the handler does
    not touch the session.  [state] and [localStorage] are as before, the
    screen stays, no login request and no retry are sent, the error's
    message is shown in the URL error paragraph and the button is enabled
    again with its own label. *)
Theorem handleFetchComments_other_failure env w err :
  RegExp_test INSTAGRAM_URL_RE (trim (urlInput (dom w))) = true →
  api_answer env "/fetch-comments"
    (FetchCommentsBody (trim (urlInput (dom w))) (sessionId (state w)))
    (timeline w) = inl err →
  is_unauthorized err = false →
  state (run (handleFetchComments env) w) = state w ∧
  localStorage (run (handleFetchComments env) w) = localStorage w ∧
  timeline (run (handleFetchComments env) w)
    = timeline w ++
        [api_call "/fetch-comments"
           (FetchCommentsBody (trim (urlInput (dom w))) (sessionId (state w)))] ∧
  active (dom (run (handleFetchComments env) w)) = active (dom w) ∧
  urlError (dom (run (handleFetchComments env) w))
    = {| textContent := error_message err; hidden := false |} ∧
  loginError (dom (run (handleFetchComments env) w)) = loginError (dom w) ∧
  fetchBtn (dom (run (handleFetchComments env) w))
    = {| disabled := false; label_text := label_text (fetchBtn (dom w));
         label_hidden := false; spinner_hidden := true |}.
Proof.
  intros Hre Hans Hun. unfold handleFetchComments.
  unfold run, mbind, mret, Js_bind, Js_ret, exec, gets. cbn.
  rewrite (matching_url_nonempty _ Hre), Hre. cbn.
  rewrite fetchCommentsOnce_eq. cbn. rewrite Hans.
  unfold handleSessionExpiry. rewrite Hun. cbn.
  repeat split; reflexivity.
Qed.

Lemma handleFetchComments_other_failure_witness :
  is_unauthorized (NativeError "TypeError" "Failed to fetch") = false ∧
  state (run (handleFetchComments offline) (signed_in_world post_url))
    = state (signed_in_world post_url) ∧
  urlError (dom (run (handleFetchComments offline) (signed_in_world post_url)))
    = {| textContent := "Failed to fetch"; hidden := false |} ∧
  active (dom (run (handleFetchComments offline) (signed_in_world post_url)))
    = Some ScreenPasteLink.
Proof.
  assert (Hre : RegExp_test INSTAGRAM_URL_RE
            (trim (urlInput (dom (signed_in_world post_url)))) = true)
    by (vm_compute; reflexivity).
  destruct (handleFetchComments_other_failure offline
              (signed_in_world post_url)
              (NativeError "TypeError" "Failed to fetch") Hre eq_refl eq_refl)
    as (Hst & _ & _ & Hact & Herr & _).
  split; [reflexivity|]. split; [exact Hst|]. split; [exact Herr|exact Hact].
Defined.

(* ====================================================================== *)
(** * What is persisted is what is restored *)

(** A successful login in closed form. *)
Lemma handleLogin_success_eq env w data :
  trim (sessionCookieInput (dom w)) ≠ "" →
  api_answer env "/login" (LoginBody (trim (sessionCookieInput (dom w))))
    (timeline w) = inr data →
  run (handleLogin env) w =
    setButtonLoading LoginBtn false
      (navigateTo ScreenPasteLink
         (set_dom (with_sessionCookieInput "")
            (saveSessionId (session_id data)
               (saveCookie (trim (sessionCookieInput (dom w)))
                  (set_state (with_sessionId (Some (session_id data)))
                     (log_event
                        (api_call "/login"
                           (LoginBody (trim (sessionCookieInput (dom w)))))
                        (setButtonLoading LoginBtn true
                           (hideError LoginError w)))))))).
Proof.
  intros Hne Hans. unfold handleLogin. js_unfold. cbn.
  apply truthy_true in Hne. rewrite Hne. cbn.
  rewrite apiPost_eq. cbn. rewrite Hans. reflexivity.
Qed.

(** X11.  Login, then a page load.  After a successful [handleLogin] the
    input field is empty, and the next start-up first validates exactly
    the session id the login returned.  If that is accepted the session
    is restored with that id and nothing else is sent; if it is refused,
    the start-up logs in again with exactly the cookie that was typed,
    trimmed. *)
Theorem login_then_startup env page w data :
  trim (sessionCookieInput (dom w)) ≠ "" →
  api_answer env "/login" (LoginBody (trim (sessionCookieInput (dom w))))
    (timeline w) = inr data →
  session_id data ≠ "" →
  sessionCookieInput (dom (run (handleLogin env) w)) = "" ∧
  (∀ ack,
     api_answer env "/validate-session" (ValidateBody (session_id data))
       (timeline (run (handleLogin env) w)) = inr ack →
     timeline (startup env page (run (handleLogin env) w))
       = timeline w ++
           [ api_call "/login" (LoginBody (trim (sessionCookieInput (dom w))));
             api_call "/validate-session" (ValidateBody (session_id data)) ] ∧
     sessionId (state (startup env page (run (handleLogin env) w)))
       = Some (session_id data) ∧
     active (dom (startup env page (run (handleLogin env) w)))
       = Some ScreenPasteLink) ∧
  (∀ err,
     api_answer env "/validate-session" (ValidateBody (session_id data))
       (timeline (run (handleLogin env) w)) = inl err →
     timeline (startup env page (run (handleLogin env) w))
       = timeline w ++
           [ api_call "/login" (LoginBody (trim (sessionCookieInput (dom w))));
             api_call "/validate-session" (ValidateBody (session_id data));
             api_call "/login" (LoginBody (trim (sessionCookieInput (dom w)))) ]).
Proof.
  intros Hne Hans Hsid.
  rewrite (handleLogin_success_eq env w data Hne Hans).
  split; [reflexivity|].
  set (c := trim (sessionCookieInput (dom w))) in *.
  assert (Hinit : ∀ W, timeline W = timeline w ++ [api_call "/login" (LoginBody c)] →
            localStorage W
              = <[SESSION_ID_STORAGE_KEY := session_id data]>
                  (<[COOKIE_STORAGE_KEY := c]> (localStorage w)) →
            (∀ ack,
               api_answer env "/validate-session" (ValidateBody (session_id data))
                 (timeline W) = inr ack →
               timeline (run (init env) W)
                 = timeline w ++
                     [ api_call "/login" (LoginBody c);
                       api_call "/validate-session" (ValidateBody (session_id data)) ] ∧
               sessionId (state (run (init env) W)) = Some (session_id data) ∧
               active (dom (run (init env) W)) = Some ScreenPasteLink) ∧
            (∀ err,
               api_answer env "/validate-session" (ValidateBody (session_id data))
                 (timeline W) = inl err →
               timeline (run (init env) W)
                 = timeline w ++
                     [ api_call "/login" (LoginBody c);
                       api_call "/validate-session" (ValidateBody (session_id data));
                       api_call "/login" (LoginBody c) ])).
  { intros W Htl Hls.
    assert (Hs : getSavedSessionId W = Some (session_id data)).
    { unfold getSavedSessionId. rewrite Hls. by storage_simpl. }
    assert (Hc : getSavedCookie W = Some c).
    { unfold getSavedCookie. rewrite Hls. by storage_simpl. }
    apply truthy_true in Hsid. apply truthy_true in Hne.
    split.
    - intros ack Hack. unfold init.
      unfold run, mbind, mret, Js_bind, Js_ret, exec, gets. cbn.
      rewrite Hs. cbn. rewrite Hsid. cbn.
      rewrite apiPost_eq. cbn. rewrite Hack. cbn.
      rewrite Htl, <- app_assoc. done.
    - intros err Herr. unfold init.
      unfold run, mbind, mret, Js_bind, Js_ret, exec, gets. cbn.
      rewrite Hs, Hc. cbn. rewrite Hsid. cbn.
      rewrite apiPost_eq. cbn. rewrite Herr. cbn.
      unfold init_tier2. js_unfold. cbn. rewrite Hne. cbn.
      rewrite apiPost_eq. cbn.
      match goal with
      | |- context [match ?a with inl _ => _ | inr _ => _ end] =>
          destruct a as [e|d]
      end; cbn.
      + destruct (is_unauthorized e); cbn; rewrite Htl, <- !app_assoc; reflexivity.
      + rewrite Htl, <- !app_assoc. reflexivity. }
  unfold startup.
  match goal with
  | |- context [run (init env) (reload page ?X)] =>
      apply (Hinit (reload page X)); reflexivity
  end.
Qed.

Lemma login_then_startup_witness :
  timeline
    (startup healthy_server fresh_dom
       (run (handleLogin healthy_server)
          (set_dom (with_sessionCookieInput " cookie-9 ") (fresh_world ∅))))
    = [ api_call "/login" (LoginBody "cookie-9");
        api_call "/validate-session" (ValidateBody "sid-2") ] ∧
  sessionId
    (state
       (startup healthy_server fresh_dom
          (run (handleLogin healthy_server)
             (set_dom (with_sessionCookieInput " cookie-9 ") (fresh_world ∅)))))
    = Some "sid-2".
Proof.
  assert (N1 : trim (sessionCookieInput
                 (dom (set_dom (with_sessionCookieInput " cookie-9 ")
                         (fresh_world ∅)))) ≠ "")
    by (vm_compute; discriminate).
  assert (N2 : session_id (login_payload "sid-2") ≠ "") by discriminate.
  destruct (login_then_startup healthy_server fresh_dom
              (set_dom (with_sessionCookieInput " cookie-9 ") (fresh_world ∅))
              (login_payload "sid-2") N1 eq_refl N2) as (_ & Hok & _).
  destruct (Hok empty_payload eq_refl) as (Htl & Hs & _).
  split; [exact Htl|exact Hs].
Defined.

(** X12.  Logout, then a page load: nothing is left to restore from.  The
    start-up after [handleLogout] sends no request and shows the login
    screen, with the login error paragraph as the page serves it; there is
    no session in memory and [localStorage] is as the logout left it. *)
Theorem logout_then_startup env page w :
  timeline (startup env page (run (handleLogout env) w))
    = timeline (run (handleLogout env) w) ∧
  active (dom (startup env page (run (handleLogout env) w))) = Some ScreenLogin ∧
  loginError (dom (startup env page (run (handleLogout env) w)))
    = loginError page ∧
  sessionId (state (startup env page (run (handleLogout env) w))) = None ∧
  localStorage (startup env page (run (handleLogout env) w))
    = localStorage (run (handleLogout env) w).
Proof.
  destruct (handleLogout_world env w) as (_ & Hls & _).
  assert (Hs : getSavedSessionId (reload page (run (handleLogout env) w)) = None).
  { unfold getSavedSessionId. cbn. rewrite Hls. by storage_simpl. }
  assert (Hc : getSavedCookie (reload page (run (handleLogout env) w)) = None).
  { unfold getSavedCookie. cbn. rewrite Hls. by storage_simpl. }
  assert (Hinit : run (init env) (reload page (run (handleLogout env) w))
                  = navigateTo ScreenLogin
                      (reload page (run (handleLogout env) w))).
  { unfold init. unfold mbind, mret, Js_bind, Js_ret, exec, gets.
    unfold run at 1. cbn. rewrite Hs. cbn. unfold init_tier2. by rewrite Hc. }
  unfold startup. rewrite Hinit. repeat split; reflexivity.
Qed.

(* ====================================================================== *)
(** * No handler leaves a button stuck *)

(** X13.  Each handler, run to completion on its own, leaves no button
    stuck: whatever the server answers and on every path, each of the
    three buttons has afterwards the label it had before, and is enabled,
    or in the state it was in if the handler does not own it.  A handler
    that disables its button or changes its label undoes both before it
    ends. *)
Theorem handlers_release_buttons env w :
  buttons_kept (dom w) (dom (run (init env) w)) ∧
  buttons_kept (dom w) (dom (run (handleLogin env) w)) ∧
  buttons_kept (dom w) (dom (run (handleLogout env) w)) ∧
  buttons_kept (dom w) (dom (run (handleFetchComments env) w)) ∧
  buttons_kept (dom w) (dom (run (handleRunGiveaway env) w)) ∧
  buttons_kept (dom w) (dom (handleRunAgain w)).
Proof.
  assert (Htier2 : ∀ c W, buttons_kept (dom W) (dom (run (init_tier2 env c) W))).
  { intros c W. unfold init_tier2. js_unfold.
    destruct (truthy_opt c); cbn; [|intros []; cbn; auto].
    rewrite apiPost_eq. cbn.
    destruct (api_answer _ _ _ _) as [err|data]; cbn;
      [destruct (is_unauthorized err)|]; intros []; cbn; auto. }
  split; [|split; [|split; [|split; [|split]]]].
  - unfold init. unfold mbind, mret, Js_bind, Js_ret, exec, gets.
    unfold run at 1. cbn.
    destruct (truthy_opt (getSavedSessionId w)); cbn; [|apply Htier2].
    rewrite apiPost_eq. cbn.
    destruct (api_answer _ _ _ _) as [err|data]; cbn; [|intros []; cbn; auto].
    match goal with
    | |- context [init_tier2 env ?c ?W] => exact (Htier2 c W)
    end.
  - unfold handleLogin. js_unfold. cbn.
    destruct (truthy (trim (sessionCookieInput (dom w)))); cbn.
    + rewrite apiPost_eq. cbn.
      destruct (api_answer _ _ _ _) as [err|data]; intros []; cbn; auto.
    + intros []; cbn; auto.
  - destruct (handleLogout_world env w) as (_ & _ & Hdom & _).
    rewrite Hdom. intros []; cbn; auto.
  - unfold handleFetchComments.
    unfold run, mbind, mret, Js_bind, Js_ret, exec, gets. cbn.
    destruct (truthy (trim (urlInput (dom w)))); [|intros []; cbn; auto]. cbn.
    destruct (RegExp_test _ _); [|intros []; cbn; auto]. cbn.
    rewrite fetchCommentsOnce_eq. cbn.
    destruct (api_answer _ _ _ _) as [err|data]; [|intros []; cbn; auto].
    unfold handleSessionExpiry.
    destruct (is_unauthorized err); [|intros []; cbn; auto]. cbn.
    unfold mbind, mret, Js_bind, Js_ret, gets, exec.
    match goal with
    | |- context [tryReauthenticate env ?W] =>
        pose proof (tryReauthenticate_dom env W) as Hd;
        destruct (tryReauthenticate env W) as [[] W']
    end; cbn in Hd |- *.
    + rewrite fetchCommentsOnce_eq. cbn.
      destruct (api_answer _ _ _ _) as [err'|data']; intros []; cbn;
        rewrite ?Hd; cbn; auto.
    + intros []; cbn; rewrite ?Hd; cbn; auto.
  - rewrite handleRunGiveaway_eq.
    destruct (api_answer _ _ _ _) as [err|data]; [intros []; cbn; auto|].
    match goal with
    | |- context [run (runSearchingAnimation env ?ws) ?W] =>
        destruct (runSearchingAnimation_frame env ws W)
          as (evs & v & Htl & Hn & Hph & Hst & Hls & Hdom & Hv1 & Hv2);
        revert Htl Hst Hls Hdom;
        generalize (run (runSearchingAnimation env ws) W);
        intros W2 Htl Hst Hls Hdom
    end.
    intros []; cbn; rewrite Hdom; cbn; auto.
  - unfold handleRunAgain. intros []; cbn; auto.
Qed.

(* ====================================================================== *)
(** * Session expiry on HTTP 401 *)

(** X14.  On an [ApiError] with status 401 [handleSessionExpiry] has two
    outcomes and never answers "not_session_error".  Either it returns
    "reauthenticated": a session id is in [state] and persisted, the saved
    cookie and the document are untouched.  Or it returns "redirected":
    the session id is gone from [state] and from storage, the login screen
    is active and shows a message; the saved cookie is either kept, and the
    message asks to try again, or gone, and the message asks for a new
    cookie. *)
Theorem handleSessionExpiry_unauthorized env err w :
  is_unauthorized err = true →
  let r := (handleSessionExpiry env err w).1 in
  let w' := run (handleSessionExpiry env err) w in
  (r = "reauthenticated" ∧
   (∃ sid, sessionId (state w') = Some sid ∧ getSavedSessionId w' = Some sid) ∧
   getSavedCookie w' = getSavedCookie w ∧
   truthy_opt (getSavedCookie w) = true ∧
   dom w' = dom w)
  ∨
  (r = "redirected" ∧
   sessionId (state w') = None ∧
   getSavedSessionId w' = None ∧
   active (dom w') = Some ScreenLogin ∧
   hidden (loginError (dom w')) = false ∧
   ((getSavedCookie w' = getSavedCookie w ∧
     truthy_opt (getSavedCookie w) = true ∧
     textContent (loginError (dom w'))
       = "Could not reconnect to Instagram. Please try again.")
    ∨
    (truthy_opt (getSavedCookie w') = false ∧
     textContent (loginError (dom w'))
       = "Your session cookie has expired. Please paste a new one."))).
Proof.
  intros Hun. unfold handleSessionExpiry. rewrite Hun. cbn.
  unfold tryReauthenticate. js_unfold. cbn.
  destruct (localStorage w !! COOKIE_STORAGE_KEY) as [c|] eqn:Hc; cbn;
    [destruct (truthy c) eqn:Ht; cbn;
       [rewrite apiPost_eq; cbn;
        destruct (api_answer _ _ _ _) as [e|data]; cbn;
          [destruct (is_unauthorized e); cbn|]|]|];
    storage_simpl; rewrite ?Hc; cbn; rewrite ?Ht; cbn.
  - right. repeat (split; [done|]). by right.
  - right. repeat (split; [done|]). by left.
  - left. split; [done|]. split; [by eexists|]. done.
  - right. repeat (split; [done|]). by right.
  - right. repeat (split; [done|]). by right.
Qed.

Lemma handleSessionExpiry_unauthorized_witness :
  is_unauthorized (ApiError "Session expired" 401) = true ∧
  (handleSessionExpiry offline (ApiError "Session expired" 401)
     (fresh_world returning_storage)).1 = "redirected" ∧
  textContent
    (loginError
       (dom (run (handleSessionExpiry offline (ApiError "Session expired" 401))
               (fresh_world returning_storage))))
    = "Could not reconnect to Instagram. Please try again.".
Proof.
  split; [reflexivity|].
  destruct (handleSessionExpiry_unauthorized offline
              (ApiError "Session expired" 401) (fresh_world returning_storage)
              eq_refl) as [(Hr & _)|(Hr & _ & _ & _ & _ & H)].
  - vm_compute in Hr. discriminate Hr.
  - split; [exact Hr|]. vm_compute. reflexivity.
Defined.

(* ====================================================================== *)
(** * Requests *)


(* ====================================================================== *)
(** * Blank input on the login form *)

Lemma trimStart_chars_blank l :
  Forall (λ c, is_white_space c = true) l → trimStart_chars l = [].
Proof.
  induction 1 as [|c l Hc _ IH]; [done|]. cbn. by rewrite Hc.
Qed.

Lemma trim_blank s :
  Forall (λ c, is_white_space c = true) (list_ascii_of_string s) →
  trim s = "".
Proof.
  intros H. unfold trim. by rewrite (trimStart_chars_blank _ H).
Qed.

(** X16.  A login form submitted with nothing but white space in the
    cookie field is treated as empty: no request is sent, [state] and
    [localStorage] stay as they are, the login button is not touched, the
    screen does not change and the login error asks for the cookie. *)
Theorem handleLogin_blank_input env w :
  Forall (λ c, is_white_space c = true)
    (list_ascii_of_string (sessionCookieInput (dom w))) →
  run (handleLogin env) w
    = showError LoginError "Please paste your Instagram session cookie." w.
Proof.
  intros H. apply trim_blank in H.
  unfold handleLogin. js_unfold. cbn. rewrite H. cbn.
  unfold showError, hideError, set_dom. cbn. by destruct w as [s l [] t n].
Qed.

Lemma handleLogin_blank_input_witness :
  Forall (λ c, is_white_space c = true)
    (list_ascii_of_string
       (sessionCookieInput
          (dom (set_dom (with_sessionCookieInput "   ") (fresh_world ∅))))) ∧
  timeline (run (handleLogin healthy_server)
              (set_dom (with_sessionCookieInput "   ") (fresh_world ∅))) = [].
Proof.
  assert (H : Forall (λ c, is_white_space c = true)
    (list_ascii_of_string
       (sessionCookieInput
          (dom (set_dom (with_sessionCookieInput "   ") (fresh_world ∅)))))).
  { cbn. repeat constructor. }
  split; [exact H|].
  rewrite (handleLogin_blank_input healthy_server _ H). reflexivity.
Defined.

(* ====================================================================== *)
(** * The link pattern *)

Lemma to_lower_idemp c : to_lower (to_lower c) = to_lower c.
Proof. destruct c as [[] [] [] [] [] [] [] []]; reflexivity. Qed.

Lemma is_word_or_dash_lower c : is_word_or_dash (to_lower c) = is_word_or_dash c.
Proof. destruct c as [[] [] [] [] [] [] [] []]; reflexivity. Qed.

Lemma ReChrI_case_blind c : case_blind (ReChrI c).
Proof. intros x. cbn. by rewrite to_lower_idemp. Qed.

Lemma ReLitI_case_blind l : case_blind (ReLitI l).
Proof.
  induction l as [|c l IH]; [done|]. split; [apply ReChrI_case_blind|exact IH].
Qed.

Lemma INSTAGRAM_URL_RE_case_blind : case_blind INSTAGRAM_URL_RE.
Proof.
  unfold INSTAGRAM_URL_RE, ReOpt, RePlus.
  repeat match goal with
         | |- case_blind (ReSeq _ _) => split
         | |- case_blind (ReAlt _ _) => split
         | |- case_blind (ReLitI _) => apply ReLitI_case_blind
         | |- case_blind (ReChrI _) => apply ReChrI_case_blind
         | |- case_blind ReEps => exact I
         | |- case_blind (ReStar _) => cbn [case_blind]
         | |- case_blind (ReClass _) => exact is_word_or_dash_lower
         end.
  exact is_word_or_dash_lower.
Qed.

Lemma deriv_lower r c :
  case_blind r → deriv (to_lower c) r = deriv c r ∧ case_blind (deriv c r).
Proof.
  induction r as [| |p|r1 IH1 r2 IH2|r1 IH1 r2 IH2|r IH]; cbn.
  - done.
  - done.
  - intros H. rewrite H. by destruct (p c).
  - intros [H1 H2]. destruct (IH1 H1) as [-> ?], (IH2 H2) as [-> ?].
    by destruct (nullable r1).
  - intros [H1 H2]. by destruct (IH1 H1) as [-> ?], (IH2 H2) as [-> ?].
  - intros H. by destruct (IH H) as [-> ?].
Qed.

Lemma test_chars_lower r s :
  case_blind r → test_chars r (map to_lower s) = test_chars r s.
Proof.
  revert r. induction s as [|c s IH]; intros r Hr; [done|]. cbn.
  destruct (deriv_lower r c Hr) as [-> Hd]. by rewrite (IH _ Hd).
Qed.

Lemma Matches_ReChrI c s :
  Matches (ReChrI c) s → ∃ x, s = [x] ∧ to_lower x = to_lower c.
Proof.
  inversion 1 as [|p x Hx| | | | |]; subst. exists x. split; [done|].
  by apply bool_decide_eq_true in Hx.
Qed.

Lemma Matches_seq r1 r2 s :
  Matches (ReSeq r1 r2) s → ∃ s1 s2, s = s1 ++ s2 ∧ Matches r1 s1 ∧ Matches r2 s2.
Proof. inversion 1; subst. eauto. Qed.

Lemma Matches_alt r1 r2 s :
  Matches (ReAlt r1 r2) s → Matches r1 s ∨ Matches r2 s.
Proof. inversion 1; subst; auto. Qed.

Lemma Matches_eps s : Matches ReEps s → s = [].
Proof. by inversion 1. Qed.

Lemma Matches_class p s : Matches (ReClass p) s → ∃ c, s = [c] ∧ p c = true.
Proof. inversion 1; subst. eauto. Qed.

Lemma Matches_ReLitI l s :
  Matches (ReLitI l) s → map to_lower s = lower_chars l.
Proof.
  revert s. induction l as [|c l IH]; intros s H; cbn in H.
  - by rewrite (Matches_eps _ H).
  - apply Matches_seq in H as (s1 & s2 & -> & H1 & H2).
    apply Matches_ReChrI in H1 as (x & -> & Hx).
    unfold lower_chars. cbn. rewrite Hx. f_equal. by apply IH.
Qed.

Lemma ReLitI_Matches l : Matches (ReLitI l) (list_ascii_of_string l).
Proof.
  induction l as [|c l IH]; cbn; [constructor|].
  apply (MSeq _ _ [c]); [|exact IH]. constructor. by apply bool_decide_eq_true.
Qed.

Lemma INSTAGRAM_URL_RE_intro s1 s2 s3 s4 s5 s6 s7 c :
  Matches (ReLitI "http") s1 → Matches (ReOpt (ReChrI "s")) s2 →
  Matches (ReLitI "://") s3 → Matches (ReOpt (ReLitI "www.")) s4 →
  Matches (ReLitI "instagram.com/") s5 →
  Matches (ReAlt (ReLitI "p") (ReAlt (ReLitI "reel") (ReLitI "tv"))) s6 →
  Matches (ReLitI "/") s7 → is_word_or_dash c = true →
  Matches INSTAGRAM_URL_RE
    (s1 ++ s2 ++ s3 ++ s4 ++ s5 ++ s6 ++ s7 ++ ([c] ++ []) ++ []).
Proof.
  intros. unfold INSTAGRAM_URL_RE.
  repeat (apply MSeq; [assumption|]).
  apply MSeq.
  - apply MSeq; [by constructor|constructor].
  - apply MAltR. constructor.
Qed.

(** X17.  The links [INSTAGRAM_URL_RE] accepts.  A string passes the test
    exactly when, letter case aside, it starts with "http" or "https", then
    "://", an optional "www.", "instagram.com/", one of "p", "reel" and
    "tv", a "/" and at least one character of an identifier (letter,
    digit, "_" or "-").  Whatever follows is not looked at: the pattern is
    anchored at the start only. *)
Theorem INSTAGRAM_URL_RE_shape s :
  RegExp_test INSTAGRAM_URL_RE s = true ↔
  ∃ scheme host kind c rest,
    (scheme = "http" ∨ scheme = "https") ∧
    (host = "" ∨ host = "www.") ∧
    (kind = "p" ∨ kind = "reel" ∨ kind = "tv") ∧
    is_word_or_dash c = true ∧
    lower_chars s =
      list_ascii_of_string
        (scheme +:+ "://" +:+ host +:+ "instagram.com/" +:+ kind +:+ "/")
      ++ c :: rest.
Proof.
  unfold RegExp_test. split.
  - intros H. apply test_chars_prefix in H as (p & q & Hs & H).
    unfold INSTAGRAM_URL_RE in H.
    apply Matches_seq in H as (s1 & p1 & -> & H1 & H).
    apply Matches_seq in H as (s2 & p2 & -> & H2 & H).
    apply Matches_seq in H as (s3 & p3 & -> & H3 & H).
    apply Matches_seq in H as (s4 & p4 & -> & H4 & H).
    apply Matches_seq in H as (s5 & p5 & -> & H5 & H).
    apply Matches_seq in H as (s6 & p6 & -> & H6 & H).
    apply Matches_seq in H as (s7 & p7 & -> & H7 & H).
    apply Matches_seq in H as (s8 & p8 & -> & H8 & _).
    apply Matches_seq in H8 as (s9 & p9 & -> & H8 & _).
    apply Matches_class in H8 as (c & -> & Hc).
    apply Matches_ReLitI in H1, H3, H5, H7.
    assert (E2 : ∃ x, (x = "" ∨ x = "s") ∧ map to_lower s2 = lower_chars x).
    { apply Matches_alt in H2 as [H2|H2].
      - apply Matches_ReChrI in H2 as (x & -> & Hx). exists "s".
        split; [by right|]. unfold lower_chars. cbn. by rewrite Hx.
      - rewrite (Matches_eps _ H2). exists "". split; [by left|done]. }
    assert (E4 : ∃ x, (x = "" ∨ x = "www.") ∧ map to_lower s4 = lower_chars x).
    { apply Matches_alt in H4 as [H4|H4].
      - exists "www.". split; [by right|]. by apply Matches_ReLitI.
      - rewrite (Matches_eps _ H4). exists "". split; [by left|done]. }
    assert (E6 : ∃ x, (x = "p" ∨ x = "reel" ∨ x = "tv") ∧
                      map to_lower s6 = lower_chars x).
    { apply Matches_alt in H6 as [H6|H6]; [|apply Matches_alt in H6 as [H6|H6]].
      - exists "p". split; [by left|]. by apply Matches_ReLitI.
      - exists "reel". split; [by right; left|]. by apply Matches_ReLitI.
      - exists "tv". split; [by right; right|]. by apply Matches_ReLitI. }
    destruct E2 as (x2 & Hx2 & E2), E4 as (x4 & Hx4 & E4), E6 as (x6 & Hx6 & E6).
    exists ("http" +:+ x2), x4, x6, (to_lower c),
      (map to_lower (p9 ++ p8 ++ q)).
    split; [destruct Hx2 as [->| ->]; auto|].
    split; [exact Hx4|]. split; [exact Hx6|].
    split; [by rewrite is_word_or_dash_lower|].
    unfold lower_chars. rewrite Hs. rewrite !map_app, H1, E2, H3, E4, H5, E6, H7.
    destruct Hx2 as [->| ->], Hx4 as [->| ->], Hx6 as [->|[->| ->]];
      cbn; by rewrite <- ?app_assoc.
  - intros (scheme & host & kind & c & rest & Hscheme & Hhost & Hkind & Hc & Hs).
    rewrite <- (test_chars_lower _ _ INSTAGRAM_URL_RE_case_blind).
    fold (lower_chars s). rewrite Hs.
    apply test_chars_prefix.
    eexists (_ ++ [c]), rest. split; [by rewrite <- app_assoc|].
    assert (Hs' : Matches (ReOpt (ReChrI "s")) ["s"%char]).
    { apply MAltL. constructor. by apply bool_decide_eq_true. }
    assert (He : ∀ r, Matches (ReOpt r) []) by (intros r; apply MAltR; constructor).
    pose proof (ReLitI_Matches "http") as L1.
    pose proof (ReLitI_Matches "://") as L3.
    assert (L4 : Matches (ReOpt (ReLitI "www.")) (list_ascii_of_string "www."))
      by (apply MAltL, ReLitI_Matches).
    pose proof (ReLitI_Matches "instagram.com/") as L5.
    pose proof (ReLitI_Matches "/") as L7.
    assert (K1 : Matches (ReAlt (ReLitI "p") (ReAlt (ReLitI "reel") (ReLitI "tv")))
                   (list_ascii_of_string "p"))
      by (apply MAltL, ReLitI_Matches).
    assert (K2 : Matches (ReAlt (ReLitI "p") (ReAlt (ReLitI "reel") (ReLitI "tv")))
                   (list_ascii_of_string "reel"))
      by (apply MAltR, MAltL, ReLitI_Matches).
    assert (K3 : Matches (ReAlt (ReLitI "p") (ReAlt (ReLitI "reel") (ReLitI "tv")))
                   (list_ascii_of_string "tv"))
      by (apply MAltR, MAltR, ReLitI_Matches).
    destruct Hscheme as [->| ->], Hhost as [->| ->], Hkind as [->|[->| ->]].
    + exact (INSTAGRAM_URL_RE_intro _ _ _ _ _ _ _ c L1 (He _) L3 (He _) L5 K1 L7 Hc).
    + exact (INSTAGRAM_URL_RE_intro _ _ _ _ _ _ _ c L1 (He _) L3 (He _) L5 K2 L7 Hc).
    + exact (INSTAGRAM_URL_RE_intro _ _ _ _ _ _ _ c L1 (He _) L3 (He _) L5 K3 L7 Hc).
    + exact (INSTAGRAM_URL_RE_intro _ _ _ _ _ _ _ c L1 (He _) L3 L4 L5 K1 L7 Hc).
    + exact (INSTAGRAM_URL_RE_intro _ _ _ _ _ _ _ c L1 (He _) L3 L4 L5 K2 L7 Hc).
    + exact (INSTAGRAM_URL_RE_intro _ _ _ _ _ _ _ c L1 (He _) L3 L4 L5 K3 L7 Hc).
    + exact (INSTAGRAM_URL_RE_intro _ _ _ _ _ _ _ c L1 Hs' L3 (He _) L5 K1 L7 Hc).
    + exact (INSTAGRAM_URL_RE_intro _ _ _ _ _ _ _ c L1 Hs' L3 (He _) L5 K2 L7 Hc).
    + exact (INSTAGRAM_URL_RE_intro _ _ _ _ _ _ _ c L1 Hs' L3 (He _) L5 K3 L7 Hc).
    + exact (INSTAGRAM_URL_RE_intro _ _ _ _ _ _ _ c L1 Hs' L3 L4 L5 K1 L7 Hc).
    + exact (INSTAGRAM_URL_RE_intro _ _ _ _ _ _ _ c L1 Hs' L3 L4 L5 K2 L7 Hc).
    + exact (INSTAGRAM_URL_RE_intro _ _ _ _ _ _ _ c L1 Hs' L3 L4 L5 K3 L7 Hc).
Qed.

(* ====================================================================== *)
(** * The countdown *)





(* ====================================================================== *)
(** * The results list *)

Lemma cards_backgrounds (background : nat → string) ws i c :
  imap (λ index username,
          {| card_background := background index;
             card_username := "@" +:+ username |}) ws !! i = Some c →
  card_background c = background i.
Proof.
  rewrite list_lookup_imap. destruct (ws !! i); [|done]. cbn. by intros [= <-].
Qed.

(** X19.  [showResults] builds one card per winner, in order, each
    labelled with "@" and the user name.  The background of the card at
    position [i] is the gradient at position [i mod 5] of the palette, so
    a background is always one of the five gradients, whatever the number
    of winners, and repeats every five cards.  The results screen becomes
    the active one; [state], [localStorage] and the timeline are not
    touched. *)
Theorem showResults_cards ws w :
  active (dom (showResults ws w)) = Some ScreenResults ∧
  map card_username (winnersList (dom (showResults ws w)))
    = map (λ name, "@" +:+ name) ws ∧
  (∀ i c, winnersList (dom (showResults ws w)) !! i = Some c →
          avatarGradients !! (i mod 5)%nat = Some (card_background c)) ∧
  state (showResults ws w) = state w ∧
  localStorage (showResults ws w) = localStorage w ∧
  timeline (showResults ws w) = timeline w.
Proof.
  unfold showResults. cbn [dom navigateTo set_dom with_active
    with_appLoading_hidden with_winnersList winnersList active state
    localStorage timeline].
  split; [done|]. split; [apply cards_usernames|]. split; [|done].
  intros i c Hc.
  apply (cards_backgrounds
           (λ index, default "undefined"
              (avatarGradients !! (index mod length avatarGradients)%nat)))
    in Hc.
  rewrite Hc. change (length avatarGradients) with 5%nat.
  assert (Hi : (i mod 5 < 5)%nat) by (apply Nat.mod_upper_bound; lia).
  destruct (i mod 5)%nat as [|[|[|[|[|j]]]]]; [done..|lia].
Qed.

(* ====================================================================== *)
(** * Running again *)

(** X20.  [handleRunAgain] resets the option buttons without losing any:
    every button keeps its setting and its value, is selected exactly when
    its value is "1", and its [aria-pressed] attribute says the same. *)
Theorem handleRunAgain_options w :
  length (optionBtns (dom (handleRunAgain w))) = length (optionBtns (dom w)) ∧
  ∀ i b, optionBtns (dom w) !! i = Some b →
    ∃ b', optionBtns (dom (handleRunAgain w)) !! i = Some b' ∧
          data_setting b' = data_setting b ∧
          data_value b' = data_value b ∧
          (selected b' = true ↔ data_value b = "1") ∧
          aria_pressed b' = (if selected b' then "true" else "false").
Proof.
  unfold handleRunAgain. cbn. split; [by rewrite length_map|].
  intros i b Hb. rewrite list_lookup_fmap, Hb. cbn. eexists. split; [done|].
  cbn. split; [done|]. split; [done|]. split; [|done].
  apply String.eqb_eq.
Qed.

(** [handleRunAgain] in one step. *)
Lemma handleRunAgain_eq w :
  handleRunAgain w =
    {| state :=
         {| sessionId := sessionId (state w); users := []; totalComments := 0;
            numWinners := 1; minComments := 1; winners := [] |};
       localStorage := localStorage w;
       dom :=
         {| active := Some ScreenPasteLink;
            appLoading_hidden := true;
            loginError := loginError (dom w);
            urlError := {| textContent := ""; hidden := true |};
            settingsError := {| textContent := ""; hidden := true |};
            sessionCookieInput := sessionCookieInput (dom w);
            urlInput := "";
            loginBtn := loginBtn (dom w);
            fetchBtn := fetchBtn (dom w);
            runGiveawayBtn := runGiveawayBtn (dom w);
            optionBtns :=
              map (λ btn,
                     {| data_setting := data_setting btn;
                        data_value := data_value btn;
                        selected := String.eqb (data_value btn) "1";
                        aria_pressed :=
                          if String.eqb (data_value btn) "1"
                          then "true" else "false" |})
                  (optionBtns (dom w));
            reveal := reveal (dom w);
            winnersList := [] |};
       timeline := timeline w;
       randoms_drawn := randoms_drawn w |}.
Proof. reflexivity. Qed.

(** X21.  Running again twice is the same as running again once. *)
Theorem handleRunAgain_idempotent w :
  handleRunAgain (handleRunAgain w) = handleRunAgain w.
Proof.
  rewrite (handleRunAgain_eq (handleRunAgain w)).
  rewrite !(handleRunAgain_eq w). cbn.
  do 2 f_equal.
  rewrite map_map. apply map_ext. intros b. cbn.
  by destruct (String.eqb (data_value b) "1").
Qed.


(* ====================================================================== *)
(** * No handler lets the results list drift from the winners *)

Lemma init_active env w :
  active (dom (run (init env) w)) = Some ScreenLogin ∨
  active (dom (run (init env) w)) = Some ScreenPasteLink.
Proof.
  cut (∃ s, active (dom (run (init env) w)) = Some s ∧
            (s = ScreenLogin ∨ s = ScreenPasteLink)).
  { intros (s & -> & [->| ->]); auto. }
  assert (Htier2 : ∀ c W,
            ∃ s, active (dom (run (init_tier2 env c) W)) = Some s ∧
                 (s = ScreenLogin ∨ s = ScreenPasteLink)).
  { intros c W. unfold init_tier2. js_unfold.
    destruct (truthy_opt c); cbn; [|eauto].
    rewrite apiPost_eq. cbn.
    destruct (api_answer _ _ _ _) as [err|data]; cbn;
      [destruct (is_unauthorized err)|]; cbn; eauto. }
  unfold init. unfold mbind, mret, Js_bind, Js_ret, exec, gets.
  unfold run at 1. cbn.
  destruct (truthy_opt (getSavedSessionId w)); cbn; [|apply Htier2].
  rewrite apiPost_eq. cbn.
  destruct (api_answer _ _ _ _) as [err|data]; cbn; [|eauto].
  match goal with
  | |- context [init_tier2 env ?c ?W] => exact (Htier2 c W)
  end.
Qed.

Lemma tryReauthenticate_winners env w :
  winners (state (tryReauthenticate env w).2) = winners (state w).
Proof.
  unfold tryReauthenticate. js_unfold. cbn.
  destruct (localStorage w !! COOKIE_STORAGE_KEY) as [c|]; [|done]. cbn.
  destruct (truthy c); [|done]. cbn. rewrite apiPost_eq. cbn.
  destruct (api_answer _ _ _ _) as [err|data]; [|done]. cbn.
  by destruct (is_unauthorized err).
Qed.

(** X22.  No handler, run to completion on its own, lets the results list
    drift from [state.winners].  [init], [handleLogin], [handleLogout],
    [handleFetchComments] and [handleRunAgain] either end on another
    screen than the results screen, or leave the screen, [state.winners]
    and the list as they were.  [handleRunGiveaway] does the same when
    the selection request fails; when it succeeds it ends on the results
    screen, and the cards of the list are the winners held in
    [state.winners], in the same order, each with "@" before the name. *)
Theorem handlers_keep_results env w :
  results_kept w (run (init env) w) ∧
  results_kept w (run (handleLogin env) w) ∧
  results_kept w (run (handleLogout env) w) ∧
  results_kept w (run (handleFetchComments env) w) ∧
  results_kept w (handleRunAgain w) ∧
  (results_kept w (run (handleRunGiveaway env) w) ∨
   (active (dom (run (handleRunGiveaway env) w)) = Some ScreenResults ∧
    map card_username (winnersList (dom (run (handleRunGiveaway env) w)))
      = map (λ name, "@" +:+ name)
          (winners (state (run (handleRunGiveaway env) w))))).
Proof.
  split; [|split; [|split; [|split; [|split]]]].
  - left. by destruct (init_active env w) as [->| ->].
  - unfold results_kept, handleLogin. js_unfold. cbn.
    destruct (truthy (trim (sessionCookieInput (dom w)))); cbn; [|by right].
    rewrite apiPost_eq. cbn.
    destruct (api_answer _ _ _ _) as [err|data]; cbn; [by right|by left].
  - left. destruct (handleLogout_world env w) as (_ & _ & Hdom & _).
    by rewrite Hdom.
  - unfold results_kept, handleFetchComments.
    unfold run, mbind, mret, Js_bind, Js_ret, exec, gets. cbn.
    destruct (truthy (trim (urlInput (dom w)))); [|by right]. cbn.
    destruct (RegExp_test _ _); [|by right]. cbn.
    rewrite fetchCommentsOnce_eq. cbn.
    destruct (api_answer _ _ _ _) as [err|data]; [|by left].
    unfold handleSessionExpiry.
    destruct (is_unauthorized err); [|by right]. cbn.
    unfold mbind, mret, Js_bind, Js_ret, gets, exec.
    match goal with
    | |- context [tryReauthenticate env ?W] =>
        pose proof (tryReauthenticate_dom env W) as Hd;
        pose proof (tryReauthenticate_winners env W) as Hw;
        destruct (tryReauthenticate env W) as [[] W']
    end; cbn in Hd, Hw |- *.
    + rewrite fetchCommentsOnce_eq. cbn.
      destruct (api_answer _ _ _ _) as [err'|data']; cbn; [|by left].
      right. by rewrite Hd, Hw.
    + by left.
  - left. by rewrite handleRunAgain_eq.
  - rewrite handleRunGiveaway_eq.
    destruct (api_answer _ _ _ _) as [err|data]; [left; by right|right].
    match goal with
    | |- context [run (runSearchingAnimation env ?ws) ?W] =>
        destruct (runSearchingAnimation_frame env ws W)
          as (evs & v & Htl & Hn & Hph & Hst & Hls & Hdom & Hv1 & Hv2);
        revert Hst;
        generalize (run (runSearchingAnimation env ws) W);
        intros W2 Hst
    end.
    split; [reflexivity|].
    unfold showResults. cbn. rewrite Hst. cbn. apply cards_usernames.
Qed.

(* ====================================================================== *)
(** * Re-authentication *)

(** X23.  [tryReauthenticate] in full.  It sends a request only when a
    non-empty cookie is saved, and then exactly one: a login with that
    cookie.  It answers [true] exactly when that login is accepted; the
    session id of the answer is then in [state] and persisted, and the
    saved cookie is kept.  When it answers [false], [state.sessionId] is
    as before.  The document is never touched. *)
Theorem tryReauthenticate_outcomes env w :
  let r := (tryReauthenticate env w).1 in
  let w' := (tryReauthenticate env w).2 in
  dom w' = dom w ∧
  timeline w' = timeline w ++
    match getSavedCookie w with
    | Some c => if truthy c then [api_call "/login" (LoginBody c)] else []
    | None => []
    end ∧
  (r = true ↔
     ∃ c data, getSavedCookie w = Some c ∧ c ≠ "" ∧
       api_answer env "/login" (LoginBody c) (timeline w) = inr data ∧
       sessionId (state w') = Some (session_id data) ∧
       getSavedSessionId w' = Some (session_id data) ∧
       getSavedCookie w' = Some c) ∧
  (r = false → sessionId (state w') = sessionId (state w)).
Proof.
  cbn zeta. unfold tryReauthenticate. js_unfold. cbn.
  destruct (localStorage w !! COOKIE_STORAGE_KEY) as [c|] eqn:Hc; cbn.
  - destruct (truthy c) eqn:Ht; cbn.
    + rewrite apiPost_eq. cbn. apply truthy_true in Ht.
      destruct (api_answer _ _ _ _) as [err|data] eqn:Hans; cbn.
      * split; [by destruct (is_unauthorized err)|].
        split; [by destruct (is_unauthorized err)|].
        split; [|by destruct (is_unauthorized err)].
        split; [by destruct (is_unauthorized err)|].
        intros (c' & data & [= <-] & _ & Hans' & _). congruence.
      * split; [done|]. split; [done|]. split; [|done].
        split; [|done]. intros _. exists c, data. storage_simpl. by rewrite Hc.
    + rewrite app_nil_r. split; [done|]. split; [done|]. split; [|done].
      split; [done|]. intros (c' & data & [= <-] & Hne & _).
      apply truthy_false in Ht. done.
  - rewrite app_nil_r. split; [done|]. split; [done|]. split; [|done].
    split; [done|]. by intros (c' & data & [=] & _).
Qed.
